(** * dbhandler: a shallow embedding of [DBHandler] and [TableNotFoundError]

    The development follows [src/dbhandler/handler.py] and
    [src/dbhandler/exception.py].  The handler is a thin layer over two
    collaborators, the [sqlite3] connection and the [pandas] SQL bridge.
    Both are modelled below as far as the handler drives them:

    - queries are Python strings, built by the same concatenations as the
      f-strings of the source, and handed to an engine that tokenises and
      parses them;
    - the engine keeps a catalog ([sqlite_master]) of tables and other
      schema objects, resolves names without regard to ASCII case, checks
      arities, and runs inside the implicit transactions of the [sqlite3]
      module;
    - a raised exception leaves whatever state the call had reached.

    Scope of the engine model.  Values are NULL, integers and text.  A
    column's affinity follows its declared type and converts what is
    stored; where the engine would go on with a REAL value the model stops
    with [Unmodelled], which is not an exception of the program.  Not
    modelled: the dtype coercion of [read_sql] (an integer column with
    NULLs comes back as floats), the check of column labels and of the
    range of integers in [to_sql], the upkeep of [sqlite_sequence] for
    AUTOINCREMENT tables, column constraints and collations, views and
    triggers; the statements about frames and about other tables say
    where they stay clear of these.  Every SQL keyword is treated as
    reserved; only the statement forms the handler issues, and
    single-column projections with an equality filter, are parsed. *)

From Stdlib Require Import List String Ascii Bool Arith ZArith Lia.
From Stdlib Require Import DecimalString.
Import ListNotations.
Open Scope string_scope.
Open Scope list_scope.

Set Implicit Arguments.

(** ** Python values and exceptions *)

(** Scalars that travel between Python and the store. *)
Inductive value : Type :=
| VNull
| VInt (z : Z)
| VText (s : string).

Definition row := list value.

Definition value_eqb (a b : value) : bool :=
  match a, b with
  | VNull, VNull => true
  | VInt x, VInt y => Z.eqb x y
  | VText x, VText y => String.eqb x y
  | _, _ => false
  end.

Fixpoint row_eqb (a b : row) : bool :=
  match a, b with
  | [], [] => true
  | x :: a', y :: b' => value_eqb x y && row_eqb a' b'
  | _, _ => false
  end.

(** Exceptions the handler raises itself ([TableNotFoundError],
    [ValueError], [KeyError]) and those that come up from the collaborators
    unchanged.  [Unmodelled] marks the places where the engine would
    continue with a value this development does not represent. *)
Inductive exn : Type :=
| TableNotFoundError (table_name : string)
| ValueError (msg : string)
| KeyError (key : string)
| TypeError
| OperationalError (msg : string)
| ProgrammingError (msg : string)
| DatabaseError (msg : string)
| OverflowError (msg : string)
| Unmodelled (what : string).

(** [exception.py]: [TableNotFoundError.__str__]. *)
Definition TableNotFoundError_str (table_name : string) : string :=
  "table '" ++ table_name ++ "' does not exists yet.".

(** [str(e)] for the exceptions of this layer. *)
Definition exn_str (e : exn) : string :=
  match e with
  | TableNotFoundError t => TableNotFoundError_str t
  | ValueError m | OperationalError m | ProgrammingError m
  | DatabaseError m | OverflowError m | Unmodelled m => m
  | KeyError k => k
  | TypeError => ""
  end.

(** ** Characters and case *)

Definition in_range (lo hi : nat) (c : ascii) : bool :=
  let n := nat_of_ascii c in (Nat.leb lo n && Nat.leb n hi)%bool.

Definition is_upper (c : ascii) : bool := in_range 65 90 c.
Definition is_lower (c : ascii) : bool := in_range 97 122 c.
Definition is_digit (c : ascii) : bool := in_range 48 57 c.

Definition is_word_char (c : ascii) : bool :=
  is_upper c || is_lower c || is_digit c || Ascii.eqb c "_".

Definition is_space (c : ascii) : bool :=
  let n := nat_of_ascii c in
  (Nat.eqb n 32 || Nat.eqb n 9 || Nat.eqb n 10 || Nat.eqb n 12
   || Nat.eqb n 13)%bool.

Definition lower_ascii (c : ascii) : ascii :=
  if is_upper c then ascii_of_nat (nat_of_ascii c + 32) else c.

Fixpoint lower (s : string) : string :=
  match s with
  | EmptyString => EmptyString
  | String c s' => String (lower_ascii c) (lower s')
  end.

(** Identifier comparison of the engine: equal up to ASCII case. *)
Definition name_eqb (a b : string) : bool := String.eqb (lower a) (lower b).

Fixpoint all_chars (p : ascii -> bool) (s : string) : bool :=
  match s with
  | EmptyString => true
  | String c s' => p c && all_chars p s'
  end.

(** ** Tokens *)

Inductive token : Type :=
| TWord (w : string)
| TStr (s : string)
| TLParen
| TRParen
| TComma
| TStar
| TQMark
| TEq
| TBad (c : ascii).

(** The tokeniser is a two-state machine: inside a bare word (possibly
    empty so far) or inside a quoted string literal. *)
Inductive lex_state : Type :=
| InWord (cur : string)
| InStr (cur : string).

Definition flush (cur : string) : list token :=
  match cur with
  | EmptyString => []
  | _ => [TWord cur]
  end.

Definition snoc (s : string) (c : ascii) : string := s ++ String c EmptyString.

Definition punct (c : ascii) : token :=
  if Ascii.eqb c "(" then TLParen
  else if Ascii.eqb c ")" then TRParen
  else if Ascii.eqb c "," then TComma
  else if Ascii.eqb c "*" then TStar
  else if Ascii.eqb c "?" then TQMark
  else if Ascii.eqb c "=" then TEq
  else TBad c.

Definition lex_step (st : lex_state) (c : ascii) : list token * lex_state :=
  match st with
  | InWord cur =>
      if is_word_char c then ([], InWord (snoc cur c))
      else if Ascii.eqb c "'" then (flush cur, InStr "")
      else if is_space c then (flush cur, InWord "")
      else (flush cur ++ [punct c], InWord "")
  | InStr cur =>
      if Ascii.eqb c "'" then ([TStr cur], InWord "")
      else ([], InStr (snoc cur c))
  end.

Fixpoint lex_run (st : lex_state) (s : string) : list token * lex_state :=
  match s with
  | EmptyString => ([], st)
  | String c s' =>
      let (out, st') := lex_step st c in
      let (rest, final) := lex_run st' s' in
      (out ++ rest, final)
  end.

Definition lex_finish (st : lex_state) : list token :=
  match st with
  | InWord cur => flush cur
  | InStr _ => [TBad "'"]
  end.

Definition lex (s : string) : list token :=
  let (out, st) := lex_run (InWord "") s in out ++ lex_finish st.

(** ** Statements *)

(** The engine's keyword list.  The model reserves all of them, so a bare
    word is an identifier only when it is none of these. *)
Definition keywords : list string :=
  ["abort"; "action"; "add"; "after"; "all"; "alter"; "always"; "analyze";
   "and"; "as"; "asc"; "attach"; "autoincrement"; "before"; "begin";
   "between"; "by"; "cascade"; "case"; "cast"; "check"; "collate"; "column";
   "commit"; "conflict"; "constraint"; "create"; "cross"; "current";
   "current_date"; "current_time"; "current_timestamp"; "database";
   "default"; "deferrable"; "deferred"; "delete"; "desc"; "detach";
   "distinct"; "do"; "drop"; "each"; "else"; "end"; "escape"; "except";
   "exclude"; "exclusive"; "exists"; "explain"; "fail"; "filter"; "first";
   "following"; "for"; "foreign"; "from"; "full"; "generated"; "glob";
   "group"; "groups"; "having"; "if"; "ignore"; "immediate"; "in"; "index";
   "indexed"; "initially"; "inner"; "insert"; "instead"; "intersect"; "into";
   "is"; "isnull"; "join"; "key"; "last"; "left"; "like"; "limit"; "match";
   "materialized"; "natural"; "no"; "not"; "nothing"; "notnull"; "null";
   "nulls"; "of"; "offset"; "on"; "or"; "order"; "others"; "outer"; "over";
   "partition"; "plan"; "pragma"; "preceding"; "primary"; "query"; "raise";
   "range"; "recursive"; "references"; "regexp"; "reindex"; "release";
   "rename"; "replace"; "restrict"; "returning"; "right"; "rollback"; "row";
   "rows"; "savepoint"; "select"; "set"; "table"; "temp"; "temporary";
   "then"; "ties"; "to"; "transaction"; "trigger"; "unbounded"; "union";
   "unique"; "update"; "using"; "vacuum"; "values"; "view"; "virtual";
   "when"; "where"; "window"; "with"; "within"; "without"].

Definition is_keyword (w : string) : bool :=
  existsb (String.eqb (lower w)) keywords.

(** A bare identifier: a letter or underscore, then letters, digits and
    underscores, and not a keyword. *)
Definition is_ident (w : string) : bool :=
  match w with
  | EmptyString => false
  | String c _ =>
      negb (is_digit c) && all_chars is_word_char w && negb (is_keyword w)
  end.

(** [kw k w]: the word [w] is the keyword [k] (given in lower case). *)
Definition kw (k w : string) : bool := String.eqb (lower w) k.

Inductive projection : Type :=
| PStar
| PCol (c : string).

(** A column as declared: its name and its declared type, if any. *)
Definition column := (string * option string)%type.

Inductive stmt : Type :=
| SCreateTable (name : string) (cols : list column)
| SAlterRename (from_ to_ : string)
| SDropTable (name : string)
| SSelect (distinct : bool) (proj : projection) (from_ : string)
          (where_ : option (string * string))
| SInsert (name : string) (n_params : nat).

(** [c1 T1, c2 T2, ... )] *)
Fixpoint parse_coldefs (ts : list token) : option (list column) :=
  match ts with
  | TWord c :: TWord ty :: rest =>
      if is_ident c && (is_ident ty || kw "null" ty) then
        let d := (c, if kw "null" ty then None else Some ty) in
        match rest with
        | [TRParen] => Some [d]
        | TComma :: rest' => option_map (cons d) (parse_coldefs rest')
        | _ => None
        end
      else None
  | _ => None
  end.

(** [?, ?, ... )] *)
Fixpoint parse_params (ts : list token) : option nat :=
  match ts with
  | TQMark :: rest =>
      match rest with
      | [TRParen] => Some 1
      | TComma :: rest' => option_map S (parse_params rest')
      | _ => None
      end
  | _ => None
  end.

Definition parse_create (ts : list token) : option stmt :=
  match ts with
  | TWord k2 :: TWord k3 :: TWord k4 :: TWord k5 :: TWord name :: TLParen
      :: defs =>
      if kw "table" k2 && kw "if" k3 && kw "not" k4 && kw "exists" k5
         && is_ident name
      then option_map (SCreateTable name) (parse_coldefs defs)
      else None
  | _ => None
  end.

Definition parse_alter (ts : list token) : option stmt :=
  match ts with
  | [TWord k2; TWord a; TWord k3; TWord k4; TWord b] =>
      if kw "table" k2 && kw "rename" k3 && kw "to" k4
         && is_ident a && is_ident b
      then Some (SAlterRename a b)
      else None
  | _ => None
  end.

Definition parse_drop (ts : list token) : option stmt :=
  match ts with
  | [TWord k2; TWord k3; TWord k4; TWord name] =>
      if kw "table" k2 && kw "if" k3 && kw "exists" k4 && is_ident name
      then Some (SDropTable name)
      else None
  | _ => None
  end.

Definition parse_insert (ts : list token) : option stmt :=
  match ts with
  | TWord k2 :: TWord name :: TWord k3 :: TLParen :: ps =>
      if kw "into" k2 && kw "values" k3 && is_ident name
      then option_map (SInsert name) (parse_params ps)
      else None
  | _ => None
  end.

Definition parse_proj (t : token) : option projection :=
  match t with
  | TStar => Some PStar
  | TWord c => if is_ident c then Some (PCol c) else None
  | _ => None
  end.

Definition parse_where (ts : list token) : option (option (string * string)) :=
  match ts with
  | [] => Some None
  | [TWord k; TWord c; TEq; TStr s] =>
      if kw "where" k && is_ident c then Some (Some (c, s)) else None
  | _ => None
  end.

Definition parse_select_body (distinct : bool) (ts : list token)
  : option stmt :=
  match ts with
  | p :: TWord k :: TWord name :: tail =>
      if kw "from" k && is_ident name then
        match parse_proj p, parse_where tail with
        | Some pr, Some w => Some (SSelect distinct pr name w)
        | _, _ => None
        end
      else None
  | _ => None
  end.

Definition parse_select (ts : list token) : option stmt :=
  match ts with
  | TWord d :: rest =>
      if kw "distinct" d then parse_select_body true rest
      else parse_select_body false ts
  | _ => parse_select_body false ts
  end.

Definition parse (ts : list token) : option stmt :=
  match ts with
  | TWord k :: rest =>
      if kw "select" k then parse_select rest
      else if kw "create" k then parse_create rest
      else if kw "alter" k then parse_alter rest
      else if kw "drop" k then parse_drop rest
      else if kw "insert" k then parse_insert rest
      else None
  | _ => None
  end.

(** ** The store *)

(** An entry of [sqlite_master]: a table with its declared columns and its
    rows, or an index on a table.  Views and triggers are not modelled. *)
Inductive entry : Type :=
| ETable (name : string) (cols : list column) (rows : list row)
| EIndex (name tbl_name : string).

Definition entry_type (e : entry) : string :=
  match e with
  | ETable _ _ _ => "table"
  | EIndex _ _ => "index"
  end.

Definition entry_name (e : entry) : string :=
  match e with
  | ETable n _ _ => n
  | EIndex n _ => n
  end.

Definition entry_tbl_name (e : entry) : string :=
  match e with
  | ETable n _ _ => n
  | EIndex _ t => t
  end.

Definition is_table (e : entry) : bool :=
  match e with
  | ETable _ _ _ => true
  | EIndex _ _ => false
  end.

(** The catalog in [rowid] order. *)
Definition database := list entry.

(** Names the engine keeps for itself ([sqlite_sequence], [sqlite_stat1],
    ...). *)
Definition reserved_name (n : string) : bool :=
  String.prefix "sqlite_" (lower n).

Definition find_entry (n : string) (db : database) : option entry :=
  find (fun e => name_eqb (entry_name e) n) db.

Definition find_table (n : string) (db : database) : option entry :=
  find (fun e => is_table e && name_eqb (entry_name e) n) db.

(** A result set: the column labels ([cursor.description]; absent for a
    statement that returns no rows) and the rows. *)
Record result_set : Type := {
  description : option (list string);
  fetched : list row
}.

Definition no_rows : result_set := {| description := None; fetched := [] |}.

Definition master_columns : list string := ["type"; "name"; "tbl_name"].

Definition master_row (e : entry) : row :=
  [VText (entry_type e); VText (entry_name e); VText (entry_tbl_name e)].

Definition is_master (n : string) : bool :=
  name_eqb n "sqlite_master" || name_eqb n "sqlite_schema".

(** [FROM n]: column labels and rows. *)
Definition resolve_from (n : string) (db : database)
  : option (list string * list row) :=
  if is_master n then Some (master_columns, map master_row db)
  else match find_table n db with
       | Some (ETable _ cols rows) => Some (map fst cols, rows)
       | _ => None
       end.

Fixpoint column_index (c : string) (labels : list string) : option nat :=
  match labels with
  | [] => None
  | l :: ls => if name_eqb l c then Some 0
               else option_map S (column_index c ls)
  end.

(** [SELECT DISTINCT]: rows in order of first occurrence. *)
Fixpoint distinct_rows (seen : list row) (rs : list row) : list row :=
  match rs with
  | [] => []
  | r :: rs' =>
      if existsb (row_eqb r) seen then distinct_rows seen rs'
      else r :: distinct_rows (r :: seen) rs'
  end.

Definition run_select (distinct : bool) (proj : projection) (from_ : string)
           (where_ : option (string * string)) (db : database)
  : exn + result_set :=
  match resolve_from from_ db with
  | None => inl (OperationalError ("no such table: " ++ from_))
  | Some (labels, rows) =>
      let filtered :=
        match where_ with
        | None => Some rows
        | Some (c, s) =>
            match column_index c labels with
            | None => None
            | Some i =>
                Some (filter (fun r => value_eqb (nth i r VNull) (VText s))
                             rows)
            end
        end in
      let projected :=
        match filtered, proj with
        | None, _ => None
        | Some rs, PStar => Some (labels, rs)
        | Some rs, PCol c =>
            match column_index c labels with
            | None => None
            | Some i => Some ([nth i labels c],
                              map (fun r => [nth i r VNull]) rs)
            end
        end in
      match projected with
      | None => inl (OperationalError "no such column")
      | Some (ls, rs) =>
          inr {| description := Some ls;
                 fetched := if distinct then distinct_rows [] rs else rs |}
      end
  end.

(** No two of the names are equal up to case. *)
Fixpoint distinct_names (ns : list string) : bool :=
  match ns with
  | [] => true
  | n :: ns' => negb (existsb (name_eqb n) ns') && distinct_names ns'
  end.

(** [CREATE TABLE] proper, once the name is known to be free. *)
Definition add_table (n : string) (cols : list column) (rows : list row)
           (db : database) : exn + database :=
  match cols with
  | [] => inl (OperationalError "syntax error: empty column list")
  | _ =>
      if reserved_name n then
        inl (OperationalError
               ("object name reserved for internal use: " ++ n))
      else if distinct_names (map fst cols) then
        inr (db ++ [ETable n cols rows])
      else inl (OperationalError "duplicate column name")
  end.

Definition run_create (n : string) (cols : list column) (db : database)
  : exn + database :=
  if reserved_name n then
    inl (OperationalError ("object name reserved for internal use: " ++ n))
  else
    match find_entry n db with
    | Some (ETable _ _ _) => inr db
    | Some (EIndex _ _) =>
        inl (OperationalError ("there is already an index named " ++ n))
    | None => add_table n cols [] db
    end.

Definition rename_entry (a b : string) (e : entry) : entry :=
  match e with
  | ETable n cols rows =>
      if name_eqb n a then ETable b cols rows else e
  | EIndex n t =>
      if name_eqb t a then EIndex n b else e
  end.

Definition run_rename (a b : string) (db : database) : exn + database :=
  match find_table a db with
  | None => inl (OperationalError ("no such table: " ++ a))
  | Some _ =>
      if reserved_name a then
        inl (OperationalError ("table " ++ a ++ " may not be altered"))
      else if reserved_name b then
        inl (OperationalError
               ("object name reserved for internal use: " ++ b))
      else
        match find_entry b db with
        | Some _ =>
            inl (OperationalError
                   ("there is already another table or index with this name: "
                      ++ b))
        | None => inr (map (rename_entry a b) db)
        end
  end.

(** Dropping a table takes its indexes and triggers with it. *)
Definition drop_entries (n : string) (db : database) : database :=
  filter (fun e => negb (name_eqb (entry_tbl_name e) n)) db.

Definition run_drop (if_exists : bool) (n : string) (db : database)
  : exn + database :=
  match find_table n db with
  | None =>
      if if_exists then inr db
      else inl (OperationalError ("no such table: " ++ n))
  | Some _ =>
      if reserved_name n then
        inl (OperationalError ("table " ++ n ++ " may not be dropped"))
      else inr (drop_entries n db)
  end.

(** *** Column affinity *)

Inductive affinity : Type :=
| AffInteger
| AffText
| AffBlob
| AffReal
| AffNumeric.

Definition has_substring (sub s : string) : bool :=
  match String.index 0 sub s with
  | Some _ => true
  | None => false
  end.

(** The engine's rules, in its order, on the declared type. *)
Definition affinity_of (decl : option string) : affinity :=
  match decl with
  | None => AffBlob
  | Some ty =>
      let u := lower ty in
      if has_substring "int" u then AffInteger
      else if has_substring "char" u || has_substring "clob" u
              || has_substring "text" u then AffText
      else if has_substring "blob" u then AffBlob
      else if has_substring "real" u || has_substring "floa" u
              || has_substring "doub" u then AffReal
      else AffNumeric
  end.

(** The range of a stored INTEGER. *)
Definition in_int64 (z : Z) : bool :=
  (Z.leb (- 9223372036854775808) z && Z.ltb z 9223372036854775808)%bool.

(** What the [sqlite3] module can bind: a Python [int] outside 64 bits
    raises [OverflowError]. *)
Definition bindable (v : value) : bool :=
  match v with
  | VInt z => in_int64 z
  | _ => true
  end.

Fixpoint drop_spaces (l : list ascii) : list ascii :=
  match l with
  | c :: l' => if is_space c then drop_spaces l' else l
  | [] => []
  end.

Definition trim (l : list ascii) : list ascii :=
  rev (drop_spaces (rev (drop_spaces l))).

Definition digit_value (c : ascii) : Z := Z.of_nat (nat_of_ascii c - 48).

Definition digits_value (ds : list ascii) : Z :=
  fold_left (fun acc c => (10 * acc + digit_value c)%Z) ds 0%Z.

Definition all_digits (ds : list ascii) : bool :=
  match ds with
  | [] => false
  | _ => forallb is_digit ds
  end.

(** Text that is an integer literal, surrounding blanks and a sign allowed. *)
Definition integer_literal (s : string) : option Z :=
  match trim (list_ascii_of_string s) with
  | c :: ds =>
      if Ascii.eqb c "-" then
        if all_digits ds then Some (- digits_value ds)%Z else None
      else if Ascii.eqb c "+" then
        if all_digits ds then Some (digits_value ds) else None
      else if all_digits (c :: ds) then Some (digits_value (c :: ds))
      else None
  | [] => None
  end.

Definition numeric_char (c : ascii) : bool :=
  is_digit c || Ascii.eqb c "+" || Ascii.eqb c "-" || Ascii.eqb c "."
  || Ascii.eqb c "e" || Ascii.eqb c "E" || is_space c
  || Nat.eqb (nat_of_ascii c) 11.

(** Text the engine might read as a number: it has a digit and nothing a
    numeric literal cannot contain. *)
Definition maybe_numeric (s : string) : bool :=
  let l := list_ascii_of_string s in
  existsb is_digit l && forallb numeric_char l.

Definition decimal (z : Z) : string := NilZero.string_of_int (Z.to_int z).

(** The value a column of affinity [a] stores for [v]; [None] where the
    stored value is a REAL. *)
Definition apply_affinity (a : affinity) (v : value) : option value :=
  match v with
  | VNull => Some VNull
  | VInt z =>
      match a with
      | AffText => Some (VText (decimal z))
      | AffReal => None
      | AffInteger | AffNumeric | AffBlob => Some v
      end
  | VText s =>
      match a with
      | AffText | AffBlob => Some v
      | AffInteger | AffNumeric | AffReal =>
          if maybe_numeric s then
            match a, integer_literal s with
            | AffReal, _ => None
            | _, Some z => if in_int64 z then Some (VInt z) else None
            | _, None => None
            end
          else Some v
      end
  end.

(** A bound row as the table's columns store it. *)
Fixpoint store_row (cols : list column) (r : row) : option row :=
  match cols, r with
  | c :: cols', v :: r' =>
      match apply_affinity (affinity_of (snd c)) v, store_row cols' r' with
      | Some v', Some r'' => Some (v' :: r'')
      | _, _ => None
      end
  | _, _ => Some []
  end.

Fixpoint store_rows (cols : list column) (rs : list row)
  : option (list row) :=
  match rs with
  | [] => Some []
  | r :: rs' =>
      match store_row cols r, store_rows cols rs' with
      | Some r', Some rs'' => Some (r' :: rs'')
      | _, _ => None
      end
  end.

Definition append_row (n : string) (r : row) (e : entry) : entry :=
  match e with
  | ETable m cols rows =>
      if name_eqb m n then ETable m cols (rows ++ [r]) else e
  | EIndex _ _ => e
  end.

(** Compiling a statement: syntax, and for [INSERT] the target table and
    the number of values against its columns. *)
Definition prepare (q : string) (db : database) : exn + stmt :=
  match parse (lex q) with
  | None => inl (OperationalError "syntax error")
  | Some (SInsert n k) =>
      match find_table n db with
      | Some (ETable _ cols _) =>
          if Nat.eqb k (List.length cols) then inr (SInsert n k)
          else inl (OperationalError
                      ("table " ++ n ++ " has a different number of columns"))
      | _ => inl (OperationalError ("no such table: " ++ n))
      end
  | Some s => inr s
  end.

(** Binding the parameters and running a compiled statement once. *)
Definition step (s : stmt) (params : row) (db : database)
  : exn + (result_set * database) :=
  let nq := match s with SInsert _ k => k | _ => 0 end in
  if negb (Nat.eqb (List.length params) nq) then
    inl (ProgrammingError "Incorrect number of bindings supplied.")
  else
    match s with
    | SCreateTable n cols =>
        match run_create n cols db with
        | inl e => inl e
        | inr db' => inr (no_rows, db')
        end
    | SAlterRename a b =>
        match run_rename a b db with
        | inl e => inl e
        | inr db' => inr (no_rows, db')
        end
    | SDropTable n =>
        match run_drop true n db with
        | inl e => inl e
        | inr db' => inr (no_rows, db')
        end
    | SSelect d p f w =>
        match run_select d p f w db with
        | inl e => inl e
        | inr rs => inr (rs, db)
        end
    | SInsert n _ =>
        if negb (forallb bindable params) then
          inl (OverflowError
                 "Python int too large to convert to SQLite INTEGER")
        else
          match find_table n db with
          | Some (ETable _ cols _) =>
              match store_row cols params with
              | Some r => inr (no_rows, map (append_row n r) db)
              | None => inl (Unmodelled "a REAL value is stored")
              end
          | _ => inl (OperationalError ("no such table: " ++ n))
          end
    end.

Definition is_dml (s : stmt) : bool :=
  match s with
  | SInsert _ _ => true
  | _ => false
  end.

Definition is_query (s : stmt) : bool :=
  match s with
  | SSelect _ _ _ _ => true
  | _ => false
  end.

(** ** The [sqlite3] connection *)

(** What is on disk, what this connection sees, and whether a transaction
    is open.  The module opens one implicitly before a data-modifying
    statement; a schema statement outside a transaction is committed at
    once. *)
Record connection : Type := {
  committed : database;
  working : database;
  in_transaction : bool
}.

Definition connect (file : database) : connection :=
  {| committed := file; working := file; in_transaction := false |}.

Definition commit (c : connection) : connection :=
  {| committed := working c; working := working c;
     in_transaction := false |}.

Definition rollback (c : connection) : connection :=
  {| committed := committed c; working := committed c;
     in_transaction := false |}.

Definition begin_for (s : stmt) (c : connection) : connection :=
  if is_dml s
  then {| committed := committed c; working := working c;
          in_transaction := true |}
  else c.

Definition store (db : database) (c : connection) : connection :=
  {| committed := if in_transaction c then committed c else db;
     working := db;
     in_transaction := in_transaction c |}.

(** [execute(q, params)] on some cursor of the connection. *)
Definition conn_execute (q : string) (params : row) (c : connection)
  : (exn + result_set) * connection :=
  match prepare q (working c) with
  | inl e => (inl e, c)
  | inr s =>
      let c1 := begin_for s c in
      match step s params (working c1) with
      | inl e => (inl e, c1)
      | inr (rs, db') => (inr rs, if is_query s then c1 else store db' c1)
      end
  end.

(** The loop of [executemany]: rows already written stay written when a
    later one fails. *)
Fixpoint step_all (s : stmt) (seq : list row) (c : connection)
  : option exn * connection :=
  match seq with
  | [] => (None, c)
  | r :: seq' =>
      match step s r (working c) with
      | inl e => (Some e, c)
      | inr (_, db') => step_all s seq' (store db' c)
      end
  end.

Definition conn_executemany (q : string) (seq : list row) (c : connection)
  : option exn * connection :=
  match prepare q (working c) with
  | inl e => (Some e, c)
  | inr s =>
      if is_dml s then step_all s seq (begin_for s c)
      else (Some (ProgrammingError
                    "executemany() can only execute DML statements."), c)
  end.

(** ** The [pandas] bridge *)

(** A frame: ordered column labels and ordered rows (the index is not
    written, [index=False]). *)
Record DataFrame : Type := {
  df_columns : list string;
  df_rows : list row
}.

(** [df.empty]: some axis has length zero. *)
Definition df_empty (df : DataFrame) : bool :=
  Nat.eqb (List.length (df_columns df)) 0
  || Nat.eqb (List.length (df_rows df)) 0.

Fixpoint label_index (c : string) (labels : list string) : option nat :=
  match labels with
  | [] => None
  | l :: ls => if String.eqb l c then Some 0
               else option_map S (label_index c ls)
  end.

(** [df[c].to_list()]; [None] stands for the [KeyError]. *)
Definition df_getitem (df : DataFrame) (c : string) : option (list value) :=
  match label_index c (df_columns df) with
  | None => None
  | Some i => Some (map (fun r => nth i r VNull) (df_rows df))
  end.

(** [pd.read_sql(q, con)]: runs on a cursor of its own; an engine error is
    rolled back and wrapped. *)
Definition read_sql (q : string) (c : connection)
  : (exn + DataFrame) * connection :=
  match conn_execute q [] c with
  | (inl e, c') =>
      (inl (DatabaseError ("Execution failed on sql '" ++ q ++ "': "
                             ++ exn_str e)),
       rollback c')
  | (inr rs, c') =>
      match description rs with
      | None => (inl TypeError, c')
      | Some labels =>
          (inr {| df_columns := labels; df_rows := fetched rs |}, c')
      end
  end.

Inductive if_exists_mode : Type :=
| Replace
| Append.

Definition is_int (v : value) : bool :=
  match v with
  | VInt _ => true
  | _ => false
  end.

(** Declared type chosen for a column from its values. *)
Definition sql_type_of (vals : list value) : option string :=
  match vals with
  | [] => Some "TEXT"
  | _ => if forallb is_int vals then Some "INTEGER" else Some "TEXT"
  end.

Fixpoint frame_schema (i : nat) (labels : list string) (rows : list row)
  : list column :=
  match labels with
  | [] => []
  | l :: ls =>
      (l, sql_type_of (map (fun r => nth i r VNull) rows))
        :: frame_schema (S i) ls rows
  end.

(** [has_table]: an exact match on the stored name. *)
Definition has_table (n : string) (db : database) : bool :=
  existsb (fun e => is_table e && String.eqb (entry_name e) n) db.

(** The value a frame row gives to table column [c], NULL when the frame
    has no such column. *)
Definition aligned_value (labels : list string) (r : row) (c : string)
  : value :=
  match column_index c labels with
  | Some i => nth i r VNull
  | None => VNull
  end.

Definition align_row (tcols : list column) (labels : list string) (r : row)
  : row :=
  map (fun c => aligned_value labels r (fst c)) tcols.

Definition append_rows (n : string) (rs : list row) (e : entry) : entry :=
  match e with
  | ETable m cols rows =>
      if name_eqb m n then ETable m cols (rows ++ rs) else e
  | EIndex _ _ => e
  end.

(** The [INSERT INTO n (labels) VALUES (...)] batch of [to_sql]. *)
Definition insert_frame (n : string) (df : DataFrame) (db : database)
  : exn + database :=
  match find_table n db with
  | Some (ETable _ tcols _) =>
      if forallb (fun l => existsb (name_eqb l) (map fst tcols))
                 (df_columns df)
      then
        match store_rows tcols
                (map (align_row tcols (df_columns df)) (df_rows df)) with
        | Some rs => inr (map (append_rows n rs) db)
        | None => inl (Unmodelled "a REAL value is stored")
        end
      else inl (OperationalError ("table " ++ n ++ " has no such column"))
  | _ => inl (OperationalError ("no such table: " ++ n))
  end.

Definition create_frame_table (n : string) (df : DataFrame) (db : database)
  : exn + database :=
  match find_entry n db with
  | Some _ => inl (OperationalError ("table " ++ n ++ " already exists"))
  | None => add_table n (frame_schema 0 (df_columns df) (df_rows df)) [] db
  end.

(** The bridge's check of the table name, before any statement. *)
Definition valid_sqlite_name (n : string) : bool :=
  negb (String.eqb n "")
  && negb (existsb (Ascii.eqb zero) (list_ascii_of_string n)).

(** [df.to_sql(n, con, if_exists=mode, index=False)].  A table name that
    is empty or holds a NUL is refused first.  The statements run in one
    transaction scope: committed at the end, rolled back when one of them
    fails. *)
Definition to_sql (n : string) (df : DataFrame) (mode : if_exists_mode)
           (c : connection) : option exn * connection :=
  let fail (e : exn) (c' : connection) := (Some e, rollback c') in
  let insert (c1 : connection) :=
    match insert_frame n df (working c1) with
    | inl e => fail e c1
    | inr db' => (None, commit (store db' c1))
    end in
  let create (c1 : connection) :=
    match create_frame_table n df (working c1) with
    | inl e => fail (DatabaseError (exn_str e)) c1
    | inr db' => insert (store db' c1)
    end in
  if negb (valid_sqlite_name n) then
    (Some (ValueError (if String.eqb n ""
                       then "Empty table or column name specified"
                       else "SQLite identifier cannot contain NULs")), c)
  else if has_table n (working c) then
    match mode with
    | Append => insert c
    | Replace =>
        match run_drop false n (working c) with
        | inl e => fail (DatabaseError (exn_str e)) c
        | inr db' => create (store db' c)
        end
    end
  else create c.

(** ** The handler monad *)

(** [DBHandler]'s private state: the resolved path, the connection, and the
    rows waiting on the handler's cursor. *)
Record DBHandler : Type := {
  DB_file_path : string;
  connector : connection;
  cursor : list row
}.

Inductive result (A : Type) : Type :=
| Ok (a : A)
| Raise (e : exn).

Arguments Ok {A} a.
Arguments Raise {A} e.

(** A method body: it returns or raises, and leaves a handler state either
    way. *)
Definition M (A : Type) : Type := DBHandler -> result A * DBHandler.

Definition ret {A} (a : A) : M A := fun h => (Ok a, h).

Definition raise {A} (e : exn) : M A := fun h => (Raise e, h).

Definition bind {A B} (m : M A) (k : A -> M B) : M B :=
  fun h =>
    match m h with
    | (Ok a, h') => k a h'
    | (Raise e, h') => (Raise e, h')
    end.

Declare Scope handler_scope.
Delimit Scope handler_scope with handler.
Notation "x <- m ;; k" := (bind m (fun x => k))
  (at level 100, m at next level, right associativity) : handler_scope.
Notation "m ;;; k" := (bind m (fun _ => k))
  (at level 100, right associativity) : handler_scope.
Open Scope handler_scope.

Definition with_connector (h : DBHandler) (c : connection) : DBHandler :=
  {| DB_file_path := DB_file_path h; connector := c; cursor := cursor h |}.

(** [self.__cursor.execute(query)] *)
Definition cursor_execute (query : string) : M unit :=
  fun h =>
    match conn_execute query [] (connector h) with
    | (inl e, c') =>
        (Raise e, {| DB_file_path := DB_file_path h; connector := c';
                     cursor := [] |})
    | (inr rs, c') =>
        (Ok tt, {| DB_file_path := DB_file_path h; connector := c';
                   cursor := fetched rs |})
    end.

(** [self.__cursor.executemany(query, values)] *)
Definition cursor_executemany (query : string) (values : list row) : M unit :=
  fun h =>
    match conn_executemany query values (connector h) with
    | (Some e, c') =>
        (Raise e, {| DB_file_path := DB_file_path h; connector := c';
                     cursor := [] |})
    | (None, c') =>
        (Ok tt, {| DB_file_path := DB_file_path h; connector := c';
                   cursor := [] |})
    end.

(** [self.__cursor.fetchall()] *)
Definition cursor_fetchall : M (list row) :=
  fun h => (Ok (cursor h), {| DB_file_path := DB_file_path h;
                              connector := connector h; cursor := [] |}).

(** [pd.read_sql(query, self.__connector)] *)
Definition pd_read_sql (query : string) : M DataFrame :=
  fun h =>
    match read_sql query (connector h) with
    | (inl e, c') => (Raise e, with_connector h c')
    | (inr df, c') => (Ok df, with_connector h c')
    end.

(** [df.to_sql(name, self.__connector, if_exists=mode, index=False)] *)
Definition df_to_sql (df : DataFrame) (name : string) (mode : if_exists_mode)
  : M unit :=
  fun h =>
    match to_sql name df mode (connector h) with
    | (Some e, c') => (Raise e, with_connector h c')
    | (None, c') => (Ok tt, with_connector h c')
    end.

(** ** [handler.py]: class [DBHandler] *)

(** Python types that may be given as a column's type; [None] is
    [option]'s. *)
Inductive pytype : Type :=
| PyInt
| PyFloat
| PyStr
| PyOther (name : string).

Definition nl : string := String (ascii_of_nat 10) EmptyString.

(** [sep.join(l)] *)
Fixpoint join (sep : string) (l : list string) : string :=
  match l with
  | [] => ""
  | [x] => x
  | x :: rest => x ++ sep ++ join sep rest
  end.

(** [needle in haystack] on a list of values. *)
Definition py_in (needle : value) (haystack : list value) : bool :=
  existsb (value_eqb needle) haystack.

(** [__init__]: connect to the file and take a cursor. *)
Definition init (path : string) (file : database) : DBHandler :=
  {| DB_file_path := path; connector := connect file; cursor := [] |}.

(** [__commit] *)
Definition commit_ : M unit :=
  fun h => (Ok tt, with_connector h (commit (connector h))).

Definition exec_query (query : string) : M (list row) :=
  cursor_execute query ;;;
  cursor_fetchall.

Definition exec_query_to_dataframe (query : string) : M DataFrame :=
  pd_read_sql query.

Definition tables_query : string :=
  nl ++ "        SELECT" ++ nl ++ "            name" ++ nl ++ "        FROM"
     ++ nl ++ "            sqlite_master" ++ nl ++ "        WHERE" ++ nl
     ++ "            type='table'" ++ nl ++ "        ".

(** property [tables] *)
Definition tables : M (list value) :=
  df <- exec_query_to_dataframe tables_query ;;
  match df_getitem df "name" with
  | Some names => ret names
  | None => raise (KeyError "name")
  end.

Definition type_dict (t : option pytype) : option string :=
  match t with
  | Some PyInt => Some "INTEGER"
  | Some PyFloat => Some "REAL"
  | Some PyStr => Some "TEXT"
  | None => Some "NULL"
  | Some (PyOther _) => None
  end.

(** [repr] of a dictionary value, for the [KeyError]. *)
Definition type_repr (t : option pytype) : string :=
  match t with
  | Some PyInt => "<class 'int'>"
  | Some PyFloat => "<class 'float'>"
  | Some PyStr => "<class 'str'>"
  | Some (PyOther n) => "<class '" ++ n ++ "'>"
  | None => "None"
  end.

(** The list comprehension of [create_table]; the first type that is not a
    key of [type_dict] raises [KeyError]. *)
Fixpoint column_clauses (items : list (string * option pytype))
  : result (list string) :=
  match items with
  | [] => Ok []
  | (key, value) :: rest =>
      match type_dict value with
      | None => Raise (KeyError (type_repr value))
      | Some ty =>
          match column_clauses rest with
          | Ok l => Ok ((key ++ " " ++ ty)%string :: l)
          | Raise e => Raise e
          end
      end
  end.

Definition create_table_query (table_name columns : string) : string :=
  "CREATE TABLE IF NOT EXISTS " ++ table_name ++ " (" ++ columns ++ ")".

Definition create_table (table_name : string)
           (columns_dict : list (string * option pytype)) : M unit :=
  match column_clauses columns_dict with
  | Raise e => raise e
  | Ok clauses =>
      let columns := join ", " clauses in
      let query := create_table_query table_name columns in
      cursor_execute query ;;;
      commit_
  end.

Definition create_table_from_dataframe (table_name : string)
           (df : DataFrame) : M unit :=
  df_to_sql df table_name Replace ;;;
  commit_.

Definition rename_query (from_ to_ : string) : string :=
  "ALTER TABLE " ++ from_ ++ " RENAME TO " ++ to_.

Definition rename_table (from_ to_ : string) : M unit :=
  ts <- tables ;;
  if negb (py_in (VText from_) ts) then raise (TableNotFoundError from_)
  else
    let query := rename_query from_ to_ in
    cursor_execute query ;;;
    commit_.

Definition select_distinct_query (table_name : string) : string :=
  nl ++ "        SELECT DISTINCT" ++ nl ++ "            *" ++ nl
     ++ "        FROM" ++ nl ++ "            " ++ table_name ++ nl
     ++ "        ".

Definition delete_duplicated (table_name : string) : M unit :=
  ts <- tables ;;
  if negb (py_in (VText table_name) ts)
  then raise (TableNotFoundError table_name)
  else
    let query := select_distinct_query table_name in
    df <- exec_query_to_dataframe query ;;
    create_table_from_dataframe table_name df.

Definition drop_query (table_name : string) : string :=
  "DROP TABLE IF EXISTS " ++ table_name.

Definition delete_table (table_name : string) : M unit :=
  ts <- tables ;;
  if negb (py_in (VText table_name) ts)
  then raise (TableNotFoundError table_name)
  else
    let query := drop_query table_name in
    cursor_execute query ;;;
    commit_.

Definition select_all_query (table_name : string) : string :=
  nl ++ "        SELECT" ++ nl ++ "            *" ++ nl ++ "        FROM"
     ++ nl ++ "            " ++ table_name ++ nl ++ "        ".

Definition fetchall (table_name : string) : M (list row) :=
  ts <- tables ;;
  if negb (py_in (VText table_name) ts)
  then raise (TableNotFoundError table_name)
  else
    let query := select_all_query table_name in
    exec_query query.

Definition fetchall_to_dataframe (table_name : string) : M DataFrame :=
  ts <- tables ;;
  if negb (py_in (VText table_name) ts)
  then raise (TableNotFoundError table_name)
  else
    let query := select_all_query table_name in
    exec_query_to_dataframe query.

Definition empty_input : exn := ValueError "add data is empty.".

Definition insert_query (table_name : string) (n_columns : nat) : string :=
  "INSERT INTO " ++ table_name ++ " VALUES ("
    ++ join ", " (repeat "?" n_columns) ++ ")".

Definition insert_records (table_name : string) (values : list row)
  : M unit :=
  ts <- tables ;;
  if negb (py_in (VText table_name) ts)
  then raise (TableNotFoundError table_name)
  else if Nat.eqb (List.length values) 0 then raise empty_input
  else
    let n_columns := List.length (hd [] values) in
    let query := insert_query table_name n_columns in
    cursor_executemany query values ;;;
    commit_.

Definition insert_records_from_dataframe (table_name : string)
           (df : DataFrame) : M unit :=
  ts <- tables ;;
  if negb (py_in (VText table_name) ts)
  then raise (TableNotFoundError table_name)
  else if df_empty df then raise empty_input
  else
    df_to_sql df table_name Append ;;;
    commit_.

(** ** Notions used in the statements *)

(** The names [sqlite_master] lists with [type='table'], in catalog order. *)
Definition table_names (db : database) : list value :=
  map (fun e => VText (entry_name e)) (filter is_table db).

(** [t] is one of the names [tables] returns on [h]. *)
Definition listed (t : string) (h : DBHandler) : Prop :=
  In (VText t) (table_names (working (connector h))).

(** The guard every table-targeted method starts with. *)
Definition guard {A} (t : string) (body : M A) : M A :=
  ts <- tables ;;
  if negb (py_in (VText t) ts) then raise (TableNotFoundError t) else body.

(** [sub] occurs in [s]. *)
Definition occurs_in (sub s : string) : Prop :=
  exists pre post : string, s = (pre ++ sub ++ post)%string.

(** The two errors this layer raises on a violated precondition: a missing
    table and an empty payload. *)
Definition precondition_error (e : exn) : bool :=
  match e with
  | TableNotFoundError _ => true
  | ValueError m => String.eqb m "add data is empty."
  | _ => false
  end.

(** Errors that come up from the engine or the bridge. *)
Definition engine_error (e : exn) : bool :=
  match e with
  | OperationalError _ | ProgrammingError _ | DatabaseError _ | TypeError
  | OverflowError _ | Unmodelled _ => true
  | _ => false
  end.

(** A call of a public method, with its arguments. *)
Inductive call : Type :=
| Call_exec_query (query : string)
| Call_exec_query_to_dataframe (query : string)
| Call_create_table (table_name : string)
                    (columns_dict : list (string * option pytype))
| Call_create_table_from_dataframe (table_name : string) (df : DataFrame)
| Call_rename_table (from_ to_ : string)
| Call_delete_duplicated (table_name : string)
| Call_delete_table (table_name : string)
| Call_fetchall (table_name : string)
| Call_fetchall_to_dataframe (table_name : string)
| Call_insert_records (table_name : string) (values : list row)
| Call_insert_records_from_dataframe (table_name : string) (df : DataFrame)
| Call_tables.

(** Forgetting the returned value. *)
Definition void {A} (m : M A) : M unit := _ <- m ;; ret tt.

Definition run_call (c : call) : M unit :=
  match c with
  | Call_exec_query q => void (exec_query q)
  | Call_exec_query_to_dataframe q => void (exec_query_to_dataframe q)
  | Call_create_table t cols => create_table t cols
  | Call_create_table_from_dataframe t df => create_table_from_dataframe t df
  | Call_rename_table a b => rename_table a b
  | Call_delete_duplicated t => delete_duplicated t
  | Call_delete_table t => delete_table t
  | Call_fetchall t => void (fetchall t)
  | Call_fetchall_to_dataframe t => void (fetchall_to_dataframe t)
  | Call_insert_records t values => insert_records t values
  | Call_insert_records_from_dataframe t df =>
      insert_records_from_dataframe t df
  | Call_tables => void tables
  end.

(** Every exception [m] can raise satisfies [P]. *)
Definition raises_only {A} (P : exn -> Prop) (m : M A) : Prop :=
  forall h e h', m h = (Raise e, h') -> P e.

(** [s] is empty or begins with a character that ends a bare word. *)
Definition starts_delim (s : string) : bool :=
  match s with
  | EmptyString => true
  | String c _ => negb (is_word_char c)
  end.

(** [', '.join(['?'] * n)] *)
Definition placeholders (n : nat) : string := join ", " (repeat "?" n).

(** Occurrences of the character [c] in [s]. *)
Fixpoint count_char (c : ascii) (s : string) : nat :=
  match s with
  | EmptyString => 0
  | String x s' => (if Ascii.eqb x c then 1 else 0) + count_char c s'
  end.

(** The tokens of [?, ?, ..., ?)] with [n + 1] question marks. *)
Fixpoint param_tokens (n : nat) : list token :=
  match n with
  | 0 => [TQMark; TRParen]
  | S k => TQMark :: TComma :: param_tokens k
  end.

(** The fixture of [tests/dbhandler/test_handler.py]: a fresh database
    file, and the handler after [__add_table(tbl, "test")]. *)
Definition fixture_df : DataFrame :=
  {| df_columns := ["id"; "name"];
     df_rows := [[VInt 1; VText "te1"]; [VInt 2; VText "te2"];
                 [VInt 2; VText "te2"]] |}.

Definition fresh_handler : DBHandler := init "test.db" [].

Definition fixture_handler : DBHandler :=
  snd (create_table_from_dataframe "test" fixture_df fresh_handler).

(** What the engine maintains for every catalog it hands out: a table has a
    name of its own, at least one column, column names that differ, and
    rows of the table's arity; no two schema objects share a name. *)
Definition wf_entry (e : entry) : bool :=
  match e with
  | ETable n cols rows =>
      negb (is_master n)
      && negb (Nat.eqb (List.length cols) 0)
      && distinct_names (map fst cols)
      && forallb (fun r => Nat.eqb (List.length r) (List.length cols)) rows
  | EIndex _ _ => true
  end.

Definition wf_database (db : database) : bool :=
  distinct_names (map entry_name db) && forallb wf_entry db.

(** A frame as the library builds them: rectangular, with at least one
    column and labels that differ. *)
Definition wf_frame (df : DataFrame) : bool :=
  negb (Nat.eqb (List.length (df_columns df)) 0)
  && distinct_names (df_columns df)
  && forallb (fun r => Nat.eqb (List.length r)
                               (List.length (df_columns df)))
             (df_rows df).

(** [l.count(v)] *)
Definition py_count (v : value) (l : list value) : nat :=
  List.length (filter (value_eqb v) l).

(** Tables that are not the engine's own. *)
Definition user_table (e : entry) : bool :=
  is_table e && negb (reserved_name (entry_name e)).

Definition user_table_names (db : database) : list value :=
  map (fun e => VText (entry_name e)) (filter user_table db).

(** A database file in which a table was declared with [AUTOINCREMENT]:
    the engine keeps its counters in [sqlite_sequence]. *)
Definition autoincrement_file : database :=
  [ETable "a" [("id", Some "INTEGER")] [[VInt 1]];
   ETable "sqlite_sequence" [("name", None); ("seq", None)]
          [[VText "a"; VInt 1]]].

(** The fixture under the name the tests use for a missing table: [to_sql]
    quotes the name, so the table can be created. *)
Definition dashed_handler : DBHandler :=
  snd (create_table_from_dataframe "test-test" fixture_df fresh_handler).

(** Values a column of affinity [a] stores as they are bound: NULL, a
    64-bit integer in an INTEGER, NUMERIC or untyped column, text in a TEXT
    or untyped column. *)
Definition fits (a : affinity) (v : value) : bool :=
  match v with
  | VNull => true
  | VInt z =>
      in_int64 z
      && match a with
         | AffInteger | AffNumeric | AffBlob => true
         | _ => false
         end
  | VText _ =>
      match a with
      | AffText | AffBlob => true
      | _ => false
      end
  end.

(** A row of the table's arity whose values all fit their columns. *)
Fixpoint row_fits (cols : list column) (r : row) : bool :=
  match cols, r with
  | c :: cols', v :: r' => fits (affinity_of (snd c)) v && row_fits cols' r'
  | [], [] => true
  | _, _ => false
  end.

Definition is_int64 (v : value) : bool :=
  match v with
  | VInt z => in_int64 z
  | _ => false
  end.

Definition is_text_or_null (v : value) : bool :=
  match v with
  | VInt _ => false
  | _ => true
  end.

(** A column of one kind: 64-bit integers only, or text and NULLs only. *)
Definition uniform_column (vals : list value) : bool :=
  forallb is_int64 vals || forallb is_text_or_null vals.

(** Rows whose first [ncols] columns are each of one kind. *)
Definition typed_rows (ncols : nat) (rows : list row) : bool :=
  forallb (fun i => uniform_column (map (fun r => nth i r VNull) rows))
          (seq 0 ncols).

Definition typed_frame (df : DataFrame) : bool :=
  typed_rows (List.length (df_columns df)) (df_rows df).

(** The rows of a frame as its own table stores them. *)
Definition stored_frame (df : DataFrame) : list row :=
  match store_rows (frame_schema 0 (df_columns df) (df_rows df))
                   (df_rows df) with
  | Some rs => rs
  | None => []
  end.

(** The catalog after [to_sql(..., if_exists="replace")]: the old table of
    that name, if any, is gone with its indexes, and the frame's table is
    the newest entry. *)
Definition replaced_base (t : string) (db : database) : database :=
  if has_table t db then drop_entries t db else db.

Definition replaced (t : string) (df : DataFrame) (db : database)
  : database :=
  replaced_base t db
    ++ [ETable t (frame_schema 0 (df_columns df) (df_rows df))
               (stored_frame df)].

(** A column dictionary [create_table] can turn into a column list the
    engine accepts: not empty, keys that are bare identifiers and differ,
    types that are keys of [type_dict]. *)
Definition valid_column (item : string * option pytype) : bool :=
  is_ident (fst item)
  && match type_dict (snd item) with
     | Some _ => true
     | None => false
     end.

Definition valid_columns (items : list (string * option pytype)) : bool :=
  negb (Nat.eqb (List.length items) 0)
  && forallb valid_column items
  && distinct_names (map fst items).

(** The declared type the engine records for a dictionary value; the word
    [NULL] declares no type. *)
Definition declared (value : option pytype) : option string :=
  match type_dict value with
  | Some ty => if kw "null" ty then None else Some ty
  | None => None
  end.

Definition declared_columns (items : list (string * option pytype))
  : list column :=
  map (fun item => (fst item, declared (snd item))) items.

(** The tokens of [k1 T1, k2 T2, ..., kn Tn)]. *)
Fixpoint col_tokens (items : list (string * option pytype)) : list token :=
  match items with
  | [] => []
  | (key, value) :: rest =>
      let ty := match type_dict value with Some ty => ty | None => "" end in
      TWord key :: TWord ty
        :: match rest with
           | [] => [TRParen]
           | _ => TComma :: col_tokens rest
           end
  end.

(** The methods that write and end in [__commit]. *)
Definition mutating (c : call) : bool :=
  match c with
  | Call_create_table _ _ | Call_create_table_from_dataframe _ _
  | Call_rename_table _ _ | Call_delete_duplicated _ | Call_delete_table _
  | Call_insert_records _ _ | Call_insert_records_from_dataframe _ _ => true
  | _ => false
  end.

(** The table a guarded method is called on. *)
Definition call_table (c : call) : option string :=
  match c with
  | Call_rename_table a _ => Some a
  | Call_delete_duplicated t | Call_delete_table t | Call_fetchall t
  | Call_fetchall_to_dataframe t | Call_insert_records t _
  | Call_insert_records_from_dataframe t _ => Some t
  | _ => None
  end.

(** Nothing is pending on the connection. *)
Definition settled (c : connection) : Prop :=
  committed c = working c /\ in_transaction c = false.

(** A database file with two tables and an index on the second one. *)
Definition two_tables_file : database :=
  [ETable "log" [("msg", Some "TEXT")] [[VText "start"]];
   ETable "test" [("id", Some "INTEGER"); ("name", Some "TEXT")]
          [[VInt 1; VText "te1"]; [VInt 2; VText "te2"];
           [VInt 2; VText "te2"]];
   EIndex "ix_test_id" "test"].

Definition two_tables_handler : DBHandler := init "test.db" two_tables_file.

(** * Properties *)

Unset Implicit Arguments.

(** ** Decidable equality of values *)

Lemma value_eqb_spec a b : reflect (a = b) (value_eqb a b).
Proof.
  destruct a, b; simpl; try (constructor; congruence).
  - destruct (Z.eqb_spec z z0); constructor; congruence.
  - destruct (String.eqb_spec s s0); constructor; congruence.
Qed.


(** ** The catalog query *)

Lemma parse_tables_query :
  parse (lex tables_query)
  = Some (SSelect false (PCol "name") "sqlite_master"
                  (Some ("type", "table"))).
Proof. vm_compute. reflexivity. Qed.

Lemma entry_type_table e :
  value_eqb (VText (entry_type e)) (VText "table") = is_table e.
Proof. destruct e as [n cols rows | n t]; reflexivity. Qed.

Lemma select_tables db :
  run_select false (PCol "name") "sqlite_master" (Some ("type", "table")) db
  = inr {| description := Some ["name"];
           fetched := map (fun v => [v]) (table_names db) |}.
Proof.
  unfold run_select.
  change (resolve_from "sqlite_master" db)
    with (Some (master_columns, map master_row db)).
  cbv iota beta.
  change (column_index "type" master_columns) with (Some 0).
  change (column_index "name" master_columns) with (Some 1).
  cbv iota beta.
  change (nth 1 master_columns "name") with "name".
  do 3 f_equal.
  unfold table_names.
  induction db as [|e db IH]; [reflexivity|].
  cbn [map filter].
  change (nth 0 (master_row e) VNull) with (VText (entry_type e)).
  rewrite entry_type_table.
  destruct (is_table e); cbn [map]; rewrite IH; reflexivity.
Qed.

Lemma conn_execute_tables c :
  conn_execute tables_query [] c
  = (inr {| description := Some ["name"];
            fetched := map (fun v => [v]) (table_names (working c)) |}, c).
Proof.
  unfold conn_execute, prepare.
  rewrite parse_tables_query.
  cbn [begin_for is_dml is_query].
  unfold step. cbn [List.length Nat.eqb negb].
  rewrite select_tables. reflexivity.
Qed.

Lemma with_connector_same h : with_connector h (connector h) = h.
Proof. destruct h; reflexivity. Qed.

Lemma nth0_singletons (l : list value) :
  map (fun r => nth 0 r VNull) (map (fun v => [v]) l) = l.
Proof.
  induction l as [|v l IH]; [reflexivity|].
  cbn [map nth]. rewrite IH. reflexivity.
Qed.

(** [tables] always returns, with the catalog's table names, and leaves the
    handler as it was. *)
Lemma tables_spec h :
  tables h = (Ok (table_names (working (connector h))), h).
Proof.
  unfold tables, bind, exec_query_to_dataframe, pd_read_sql, read_sql.
  rewrite conn_execute_tables. cbn [description fetched].
  rewrite with_connector_same.
  unfold df_getitem. cbn [df_columns df_rows].
  change (label_index "name" ["name"]) with (Some 0).
  cbv iota beta. rewrite nth0_singletons. reflexivity.
Qed.

Lemma py_in_In v l : py_in v l = true <-> In v l.
Proof.
  unfold py_in. rewrite existsb_exists. split.
  - intros [x [Hx Heq]]. destruct (value_eqb_spec v x); congruence.
  - intros H. exists v. split; [assumption|].
    destruct (value_eqb_spec v v); congruence.
Qed.

Lemma py_in_false v l : ~ In v l -> py_in v l = false.
Proof.
  intros H. destruct (py_in v l) eqn:E; [|reflexivity].
  apply py_in_In in E. contradiction.
Qed.

Lemma tables_listed h t ts :
  fst (tables h) = Ok ts -> (In (VText t) ts <-> listed t h).
Proof.
  rewrite tables_spec. cbn [fst]. intros H. injection H as <-. reflexivity.
Qed.

Lemma guard_absent {A} t (body : M A) h :
  ~ listed t h -> guard t body h = (Raise (TableNotFoundError t), h).
Proof.
  intros H. unfold guard, bind. rewrite tables_spec.
  rewrite (py_in_false _ _ H). reflexivity.
Qed.

Lemma guard_present {A} t (body : M A) h :
  listed t h -> guard t body h = body h.
Proof.
  intros H. unfold guard, bind. rewrite tables_spec.
  apply py_in_In in H. rewrite H. reflexivity.
Qed.

Lemma rename_table_guard a b :
  rename_table a b
  = guard a (cursor_execute (rename_query a b) ;;; commit_).
Proof. reflexivity. Qed.

Lemma delete_duplicated_guard t :
  delete_duplicated t
  = guard t (df <- exec_query_to_dataframe (select_distinct_query t) ;;
             create_table_from_dataframe t df).
Proof. reflexivity. Qed.

Lemma delete_table_guard t :
  delete_table t = guard t (cursor_execute (drop_query t) ;;; commit_).
Proof. reflexivity. Qed.

Lemma fetchall_guard t :
  fetchall t = guard t (exec_query (select_all_query t)).
Proof. reflexivity. Qed.

Lemma fetchall_to_dataframe_guard t :
  fetchall_to_dataframe t
  = guard t (exec_query_to_dataframe (select_all_query t)).
Proof. reflexivity. Qed.

Lemma insert_records_guard t values :
  insert_records t values
  = guard t
      (if Nat.eqb (List.length values) 0 then raise empty_input
       else cursor_executemany
              (insert_query t (List.length (hd [] values))) values ;;;
            commit_).
Proof. reflexivity. Qed.

Lemma insert_records_from_dataframe_guard t df :
  insert_records_from_dataframe t df
  = guard t
      (if df_empty df then raise empty_input
       else df_to_sql df t Append ;;; commit_).
Proof. reflexivity. Qed.

(** ** The message of [TableNotFoundError] *)

Lemma append_assoc (a b c : string) :
  ((a ++ b) ++ c = a ++ (b ++ c))%string.
Proof.
  induction a as [|x a IH]; [reflexivity|].
  cbn [append]. rewrite IH. reflexivity.
Qed.

Example str_TableNotFoundError_test :
  exn_str (TableNotFoundError "test") = "table 'test' does not exists yet.".
Proof. reflexivity. Qed.

(** C8: the message of [TableNotFoundError(t)] is
    [table '<t>' does not exists yet.]: it names the table and says that it
    does not exist yet. *)
Theorem TableNotFoundError_message (t : string) :
  exn_str (TableNotFoundError t)
  = ("table '" ++ t ++ "' does not exists yet.")%string
  /\ occurs_in t (exn_str (TableNotFoundError t))
  /\ occurs_in "does not exist" (exn_str (TableNotFoundError t)).
Proof.
  split; [reflexivity|]. split.
  - exists "table '", "' does not exists yet.". reflexivity.
  - exists ("table '" ++ t ++ "' ")%string, "s yet.".
    cbn [exn_str]. unfold TableNotFoundError_str.
    rewrite !append_assoc. reflexivity.
Qed.

(** ** Absent tables *)

(** C1: when [t] is not among the names [tables] returns, each of
    [rename_table], [delete_table], [fetchall], [fetchall_to_dataframe],
    [insert_records], [insert_records_from_dataframe] and
    [delete_duplicated] raises [TableNotFoundError(t)], whatever the other
    arguments are. *)
Theorem absent_table_raises (h : DBHandler) (t : string) (ts : list value) :
  fst (tables h) = Ok ts ->
  ~ In (VText t) ts ->
  (forall to_, rename_table t to_ h = (Raise (TableNotFoundError t), h))
  /\ delete_table t h = (Raise (TableNotFoundError t), h)
  /\ fetchall t h = (Raise (TableNotFoundError t), h)
  /\ fetchall_to_dataframe t h = (Raise (TableNotFoundError t), h)
  /\ (forall values,
         insert_records t values h = (Raise (TableNotFoundError t), h))
  /\ (forall df,
         insert_records_from_dataframe t df h
         = (Raise (TableNotFoundError t), h))
  /\ delete_duplicated t h = (Raise (TableNotFoundError t), h).
Proof.
  intros Hts Hno.
  assert (Habs : ~ listed t h).
  { intros Hl. apply Hno. apply (tables_listed h t ts Hts). exact Hl. }
  repeat split; intros.
  - rewrite rename_table_guard. apply guard_absent, Habs.
  - rewrite delete_table_guard. apply guard_absent, Habs.
  - rewrite fetchall_guard. apply guard_absent, Habs.
  - rewrite fetchall_to_dataframe_guard. apply guard_absent, Habs.
  - rewrite insert_records_guard. apply guard_absent, Habs.
  - rewrite insert_records_from_dataframe_guard. apply guard_absent, Habs.
  - rewrite delete_duplicated_guard. apply guard_absent, Habs.
Qed.

(** ** Empty payloads *)

(** C2: on a listed table, [insert_records] with an empty list and
    [insert_records_from_dataframe] with a frame of zero rows both raise
    [ValueError("add data is empty.")], and the handler state, pending and
    committed rows included, is what it was. *)
Theorem empty_payload_raises (h : DBHandler) (t : string) (ts : list value) :
  fst (tables h) = Ok ts ->
  In (VText t) ts ->
  insert_records t [] h = (Raise (ValueError "add data is empty."), h)
  /\ (forall df,
         df_rows df = [] ->
         insert_records_from_dataframe t df h
         = (Raise (ValueError "add data is empty."), h)).
Proof.
  intros Hts Hin.
  assert (Hl : listed t h) by (apply (tables_listed h t ts Hts); exact Hin).
  split.
  - rewrite insert_records_guard, (guard_present _ _ _ Hl). reflexivity.
  - intros df Hrows.
    rewrite insert_records_from_dataframe_guard, (guard_present _ _ _ Hl).
    unfold df_empty. rewrite Hrows. cbn [List.length Nat.eqb].
    rewrite orb_true_r. reflexivity.
Qed.

(** ** Where exceptions come from *)

Lemma raises_only_ret {A} P (a : A) : raises_only P (ret a).
Proof. intros h e h' H. discriminate. Qed.

Lemma raises_only_bind {A B} P (m : M A) (k : A -> M B) :
  raises_only P m -> (forall a, raises_only P (k a)) ->
  raises_only P (bind m k).
Proof.
  intros Hm Hk h e h' H. unfold bind in H.
  destruct (m h) as [[a|e1] h1] eqn:E.
  - exact (Hk a _ _ _ H).
  - injection H as <- <-. exact (Hm _ _ _ E).
Qed.

Lemma raises_only_void {A} P (m : M A) :
  raises_only P m -> raises_only P (void m).
Proof.
  intros Hm. apply raises_only_bind; [exact Hm|].
  intros a. apply raises_only_ret.
Qed.

Local Ltac engine_cases :=
  repeat match goal with
    | H : inl _ = inl _ |- _ => injection H as <-
    | H : inr _ = inl _ |- _ => discriminate H
    | H : (_, _) = (_, _) |- _ => injection H as ? ?; subst
    | H : Some _ = Some _ |- _ => injection H as <-
    | H : None = Some _ |- _ => discriminate H
    | H : context [match ?x with _ => _ end] |- _ => destruct x eqn:?
    | H : context [if ?x then _ else _] |- _ => destruct x eqn:?
    end; try reflexivity; try discriminate.

Lemma add_table_error n cols rows db e :
  add_table n cols rows db = inl e -> engine_error e = true.
Proof. unfold add_table. intros H. engine_cases. Qed.

Lemma run_create_error n cols db e :
  run_create n cols db = inl e -> engine_error e = true.
Proof.
  unfold run_create. intros H.
  destruct (reserved_name n); [injection H as <-; reflexivity|].
  destruct (find_entry n db) as [[?|?]|].
  - discriminate.
  - injection H as <-; reflexivity.
  - exact (add_table_error _ _ _ _ _ H).
Qed.

Lemma run_rename_error a b db e :
  run_rename a b db = inl e -> engine_error e = true.
Proof. unfold run_rename. intros H. engine_cases. Qed.

Lemma run_drop_error f n db e :
  run_drop f n db = inl e -> engine_error e = true.
Proof. unfold run_drop. intros H. engine_cases. Qed.

Lemma run_select_error d p f w db e :
  run_select d p f w db = inl e -> engine_error e = true.
Proof. unfold run_select. intros H. engine_cases. Qed.

Lemma prepare_error q db e : prepare q db = inl e -> engine_error e = true.
Proof. unfold prepare. intros H. engine_cases. Qed.

Lemma step_error s params db e :
  step s params db = inl e -> engine_error e = true.
Proof.
  unfold step. intros H.
  destruct (negb _); [injection H as <-; reflexivity|].
  destruct s.
  - destruct (run_create name cols db) eqn:E; [|discriminate].
    injection H as <-. exact (run_create_error _ _ _ _ E).
  - destruct (run_rename from_ to_ db) eqn:E; [|discriminate].
    injection H as <-. exact (run_rename_error _ _ _ _ E).
  - destruct (run_drop true name db) eqn:E; [|discriminate].
    injection H as <-. exact (run_drop_error _ _ _ _ E).
  - destruct (run_select distinct proj from_ where_ db) eqn:E; [|discriminate].
    injection H as <-. exact (run_select_error _ _ _ _ _ _ E).
  - engine_cases.
Qed.

Lemma conn_execute_error q params c e c' :
  conn_execute q params c = (inl e, c') -> engine_error e = true.
Proof.
  unfold conn_execute. intros H.
  destruct (prepare q (working c)) as [e0|s] eqn:Ep.
  - injection H as <- <-. exact (prepare_error _ _ _ Ep).
  - destruct (step s params (working (begin_for s c))) as [e0|[rs db']] eqn:Es.
    + injection H as <- <-. exact (step_error _ _ _ _ Es).
    + discriminate.
Qed.

Lemma step_all_error s seq c e c' :
  step_all s seq c = (Some e, c') -> engine_error e = true.
Proof.
  revert c. induction seq as [|r seq IH]; intros c H; cbn [step_all] in H.
  - discriminate.
  - destruct (step s r (working c)) as [e0|[rs db']] eqn:Es.
    + injection H as <- <-. exact (step_error _ _ _ _ Es).
    + exact (IH _ H).
Qed.

Lemma conn_executemany_error q seq c e c' :
  conn_executemany q seq c = (Some e, c') -> engine_error e = true.
Proof.
  unfold conn_executemany. intros H.
  destruct (prepare q (working c)) as [e0|s] eqn:Ep.
  - injection H as <- <-. exact (prepare_error _ _ _ Ep).
  - destruct (is_dml s).
    + exact (step_all_error _ _ _ _ _ H).
    + injection H as <- <-. reflexivity.
Qed.

Lemma read_sql_error q c e c' :
  read_sql q c = (inl e, c') -> engine_error e = true.
Proof.
  unfold read_sql. intros H.
  destruct (conn_execute q [] c) as [[e0|rs] c1].
  - injection H as <- <-. reflexivity.
  - destruct (description rs); [discriminate|].
    injection H as <- <-. reflexivity.
Qed.

Lemma insert_frame_error n df db e :
  insert_frame n df db = inl e -> engine_error e = true.
Proof. unfold insert_frame. intros H. engine_cases. Qed.

Lemma engine_not_precondition e :
  engine_error e = true -> precondition_error e = false.
Proof. destruct e; simpl; congruence. Qed.

(** The bridge raises engine errors and its own [ValueError] for a name,
    never one of the two errors of this layer. *)
Lemma to_sql_error n df mode c e c' :
  to_sql n df mode c = (Some e, c') -> precondition_error e = false.
Proof.
  unfold to_sql. intros H.
  destruct (valid_sqlite_name n).
  - cbn [negb] in H.
    repeat match type of H with
      | context [match insert_frame ?a ?b ?d with _ => _ end] =>
          let E := fresh "E" in
          destruct (insert_frame a b d) eqn:E;
          [apply insert_frame_error, engine_not_precondition in E|]
      | context [match ?x with _ => _ end] => destruct x eqn:?
      | context [if ?x then _ else _] => destruct x eqn:?
      end;
      try discriminate; injection H as <- <-; try reflexivity; assumption.
  - cbn [negb] in H. injection H as <- <-.
    destruct (String.eqb n ""); reflexivity.
Qed.

Lemma cursor_execute_raises q : raises_only (fun e => engine_error e = true)
                                            (cursor_execute q).
Proof.
  intros h e h' H. unfold cursor_execute in H.
  destruct (conn_execute q [] (connector h)) as [[e0|rs] c1] eqn:E.
  - injection H as <- <-. exact (conn_execute_error _ _ _ _ _ E).
  - discriminate.
Qed.

Lemma cursor_executemany_raises q values :
  raises_only (fun e => engine_error e = true) (cursor_executemany q values).
Proof.
  intros h e h' H. unfold cursor_executemany in H.
  destruct (conn_executemany q values (connector h)) as [[e0|] c1] eqn:E.
  - injection H as <- <-. exact (conn_executemany_error _ _ _ _ _ E).
  - discriminate.
Qed.

Lemma cursor_fetchall_raises P : raises_only P cursor_fetchall.
Proof. intros h e h' H. discriminate. Qed.

Lemma commit_raises P : raises_only P commit_.
Proof. intros h e h' H. discriminate. Qed.

Lemma pd_read_sql_raises q :
  raises_only (fun e => engine_error e = true) (pd_read_sql q).
Proof.
  intros h e h' H. unfold pd_read_sql in H.
  destruct (read_sql q (connector h)) as [[e0|df] c1] eqn:E.
  - injection H as <- <-. exact (read_sql_error _ _ _ _ E).
  - discriminate.
Qed.

Lemma df_to_sql_raises df n mode :
  raises_only (fun e => precondition_error e = false) (df_to_sql df n mode).
Proof.
  intros h e h' H. unfold df_to_sql in H.
  destruct (to_sql n df mode (connector h)) as [[e0|] c1] eqn:E.
  - injection H as <- <-. exact (to_sql_error _ _ _ _ _ _ E).
  - discriminate.
Qed.

Lemma exec_query_raises q :
  raises_only (fun e => engine_error e = true) (exec_query q).
Proof.
  apply raises_only_bind; [apply cursor_execute_raises|].
  intros _. apply cursor_fetchall_raises.
Qed.

Lemma create_table_from_dataframe_raises t df :
  raises_only (fun e => precondition_error e = false)
              (create_table_from_dataframe t df).
Proof.
  apply raises_only_bind; [apply df_to_sql_raises|].
  intros _. apply commit_raises.
Qed.

Lemma tables_raises P : raises_only P tables.
Proof. intros h e h' H. rewrite tables_spec in H. discriminate. Qed.

Lemma raises_only_weaken {A} (P Q : exn -> Prop) (m : M A) :
  (forall e, P e -> Q e) -> raises_only P m -> raises_only Q m.
Proof. intros HPQ Hm h e h' H. apply HPQ. exact (Hm _ _ _ H). Qed.

Lemma column_clauses_error items e :
  column_clauses items = Raise e -> exists key, e = KeyError key.
Proof.
  induction items as [|[key value] items IH]; cbn [column_clauses].
  - discriminate.
  - destruct (type_dict value).
    + destruct (column_clauses items); [discriminate|].
      intros H. injection H as <-. apply IH. reflexivity.
    + intros H. injection H as <-. eauto.
Qed.

Lemma create_table_raises t cols :
  raises_only (fun e => precondition_error e = false) (create_table t cols).
Proof.
  unfold create_table.
  destruct (column_clauses cols) as [clauses|e0] eqn:E.
  - apply raises_only_bind.
    + apply (raises_only_weaken _ _ _ engine_not_precondition).
      apply cursor_execute_raises.
    + intros _. apply commit_raises.
  - intros h e h' H. injection H as <- <-.
    destruct (column_clauses_error _ _ E) as [key ->]. reflexivity.
Qed.

(** A guarded method: a precondition error leaves the state alone as soon
    as its body does. *)
Lemma guard_atomic {A} t (body : M A) h e h' :
  (listed t h -> body h = (Raise e, h') -> h' = h) ->
  guard t body h = (Raise e, h') ->
  precondition_error e = true ->
  h' = h.
Proof.
  intros Hbody H _. unfold guard, bind in H. rewrite tables_spec in H.
  destruct (py_in (VText t) (table_names (working (connector h)))) eqn:E;
    cbn [negb] in H.
  - apply Hbody; [apply py_in_In; exact E | exact H].
  - injection H as _ <-. reflexivity.
Qed.

Lemma library_body_atomic {A} (body : M A) h e h' :
  raises_only (fun e => precondition_error e = false) body ->
  precondition_error e = true ->
  body h = (Raise e, h') -> h' = h.
Proof. intros Hb Hp H. apply Hb in H. congruence. Qed.

Lemma engine_body_atomic {A} (body : M A) h e h' :
  raises_only (fun e => engine_error e = true) body ->
  precondition_error e = true ->
  body h = (Raise e, h') -> h' = h.
Proof.
  intros Hb. apply library_body_atomic.
  exact (raises_only_weaken _ _ _ engine_not_precondition Hb).
Qed.

Lemma engine_raises_library {A} (m : M A) :
  raises_only (fun e => engine_error e = true) m ->
  raises_only (fun e => precondition_error e = false) m.
Proof. apply raises_only_weaken, engine_not_precondition. Qed.

Lemma void_raise {A} (m : M A) h e h' :
  void m h = (Raise e, h') -> m h = (Raise e, h').
Proof.
  unfold void, bind, ret. destruct (m h) as [[a|e0] h0]; congruence.
Qed.

(** ** Atomicity of the precondition errors *)

(** C9: whenever a public method raises [TableNotFoundError] or the
    empty-input [ValueError], the handler state it leaves (the committed
    database, the connection's pending view, the cursor) is the state it was
    called on. *)
Theorem precondition_error_atomic (c : call) (h h' : DBHandler) (e : exn) :
  run_call c h = (Raise e, h') ->
  precondition_error e = true ->
  h' = h.
Proof.
  intros H Hp.
  destruct c; cbn [run_call] in H; try apply void_raise in H.
  - apply (engine_body_atomic _ _ _ _ (exec_query_raises query) Hp H).
  - apply (engine_body_atomic _ _ _ _ (pd_read_sql_raises query) Hp H).
  - apply create_table_raises in H. congruence.
  - apply (library_body_atomic _ _ _ _
             (create_table_from_dataframe_raises table_name df) Hp H).
  - rewrite rename_table_guard in H.
    apply (guard_atomic _ _ _ _ _) with (3 := Hp) (2 := H). intros _.
    apply engine_body_atomic; [|exact Hp].
    apply raises_only_bind; [apply cursor_execute_raises|].
    intros _. apply commit_raises.
  - rewrite delete_duplicated_guard in H.
    apply (guard_atomic _ _ _ _ _) with (3 := Hp) (2 := H). intros _.
    apply library_body_atomic; [|exact Hp].
    apply raises_only_bind;
      [apply engine_raises_library, pd_read_sql_raises|].
    intros df. apply create_table_from_dataframe_raises.
  - rewrite delete_table_guard in H.
    apply (guard_atomic _ _ _ _ _) with (3 := Hp) (2 := H). intros _.
    apply engine_body_atomic; [|exact Hp].
    apply raises_only_bind; [apply cursor_execute_raises|].
    intros _. apply commit_raises.
  - rewrite fetchall_guard in H.
    apply (guard_atomic _ _ _ _ _) with (3 := Hp) (2 := H). intros _.
    apply engine_body_atomic; [apply exec_query_raises | exact Hp].
  - rewrite fetchall_to_dataframe_guard in H.
    apply (guard_atomic _ _ _ _ _) with (3 := Hp) (2 := H). intros _.
    apply engine_body_atomic; [apply pd_read_sql_raises | exact Hp].
  - rewrite insert_records_guard in H.
    apply (guard_atomic _ _ _ _ _) with (3 := Hp) (2 := H). intros _.
    destruct (Nat.eqb (List.length values) 0).
    + intros Hr. injection Hr as _ <-. reflexivity.
    + apply engine_body_atomic; [|exact Hp].
      apply raises_only_bind; [apply cursor_executemany_raises|].
      intros _. apply commit_raises.
  - rewrite insert_records_from_dataframe_guard in H.
    apply (guard_atomic _ _ _ _ _) with (3 := Hp) (2 := H). intros _.
    destruct (df_empty df).
    + intros Hr. injection Hr as _ <-. reflexivity.
    + apply library_body_atomic; [|exact Hp].
      apply raises_only_bind; [apply df_to_sql_raises|].
      intros _. apply commit_raises.
  - rewrite tables_spec in H. discriminate.
Qed.

(** ** Tokenising the handler's queries *)

Lemma lex_run_app st a b :
  lex_run st (a ++ b)
  = (fst (lex_run st a) ++ fst (lex_run (snd (lex_run st a)) b),
     snd (lex_run (snd (lex_run st a)) b)).
Proof.
  revert st. induction a as [|x a IH]; intros st.
  - cbn [append lex_run fst snd app]. destruct (lex_run st b); reflexivity.
  - cbn [append lex_run].
    destruct (lex_step st x) as [out st1].
    rewrite IH.
    destruct (lex_run st1 a) as [o1 s1]. cbn [fst snd].
    destruct (lex_run s1 b) as [o2 s2]. cbn [fst snd].
    rewrite app_assoc. reflexivity.
Qed.

Lemma snoc_append cur x a : (snoc cur x ++ a = cur ++ String x a)%string.
Proof. unfold snoc. rewrite append_assoc. reflexivity. Qed.

Lemma append_empty_r (s : string) : (s ++ "")%string = s.
Proof. induction s as [|x s IH]; [reflexivity|]. cbn. rewrite IH. reflexivity. Qed.

Lemma lex_run_word cur w :
  all_chars is_word_char w = true ->
  lex_run (InWord cur) w = ([], InWord (cur ++ w)).
Proof.
  revert cur. induction w as [|x w IH]; intros cur H.
  - cbn [lex_run]. rewrite append_empty_r. reflexivity.
  - cbn [all_chars] in H. apply andb_true_iff in H as [Hx Hw].
    cbn [lex_run lex_step]. rewrite Hx.
    rewrite (IH _ Hw), snoc_append. reflexivity.
Qed.

Lemma lex_run_delim cur s :
  s <> EmptyString -> starts_delim s = true ->
  lex_run (InWord cur) s
  = (flush cur ++ fst (lex_run (InWord "") s), snd (lex_run (InWord "") s)).
Proof.
  destruct s as [|c s]; [congruence|]. intros _ H.
  cbn [starts_delim] in H. apply negb_true_iff in H.
  cbn [lex_run lex_step]. rewrite H.
  destruct (Ascii.eqb c "'").
  - destruct (lex_run (InStr "") s) as [o st]. reflexivity.
  - destruct (is_space c).
    + destruct (lex_run (InWord "") s) as [o st]. reflexivity.
    + destruct (lex_run (InWord "") s) as [o st].
      cbn [fst snd flush app]. rewrite <- app_assoc. reflexivity.
Qed.

(** A prefix that leaves the tokeniser between tokens is tokenised on its
    own. *)
Lemma lex_clean p x :
  snd (lex_run (InWord "") p) = InWord "" ->
  lex (p ++ x) = fst (lex_run (InWord "") p) ++ lex x.
Proof.
  intros H. unfold lex. rewrite lex_run_app, H.
  destruct (lex_run (InWord "") x) as [o st]. cbn [fst snd].
  rewrite app_assoc. reflexivity.
Qed.

Lemma lex_clean_tokens p toks x :
  lex_run (InWord "") p = (toks, InWord "") ->
  lex (p ++ x) = toks ++ lex x.
Proof. intros H. rewrite lex_clean; rewrite H; reflexivity. Qed.

Lemma is_ident_word w :
  is_ident w = true -> w <> EmptyString /\ all_chars is_word_char w = true.
Proof.
  destruct w as [|c w]; [discriminate|]. unfold is_ident. intros H.
  apply andb_true_iff in H as [H _]. apply andb_true_iff in H as [_ H].
  split; [discriminate | exact H].
Qed.

Lemma word_chars_no_nul w :
  all_chars is_word_char w = true ->
  existsb (Ascii.eqb zero) (list_ascii_of_string w) = false.
Proof.
  induction w as [|c w IH]; [reflexivity|].
  cbn [all_chars list_ascii_of_string existsb]. intros H.
  apply andb_true_iff in H as [Hc Hw]. rewrite (IH Hw), orb_false_r.
  destruct (Ascii.eqb_spec zero c) as [<-|_]; [discriminate Hc | reflexivity].
Qed.

(** A bare identifier passes the bridge's check of names. *)
Lemma is_ident_valid_name t : is_ident t = true -> valid_sqlite_name t = true.
Proof.
  intros H. destruct (is_ident_word _ H) as [Hne Hw].
  unfold valid_sqlite_name. rewrite (word_chars_no_nul _ Hw).
  destruct t; [congruence | reflexivity].
Qed.

Lemma flush_word w : w <> EmptyString -> flush w = [TWord w].
Proof. destruct w; [congruence | reflexivity]. Qed.

(** A bare word followed by a delimiter is one token. *)
Lemma lex_word w s :
  w <> EmptyString -> all_chars is_word_char w = true ->
  starts_delim s = true ->
  lex (w ++ s) = TWord w :: lex s.
Proof.
  intros Hne Hw Hs. unfold lex. rewrite lex_run_app, (lex_run_word _ _ Hw).
  cbn [fst snd app append].
  destruct s as [|c s].
  - cbn [lex_run fst snd lex_finish app]. apply flush_word, Hne.
  - rewrite lex_run_delim by (congruence || assumption).
    cbn [fst snd]. rewrite (flush_word _ Hne).
    destruct (lex_run (InWord "") (String c s)); reflexivity.
Qed.

Lemma lex_ident w s :
  is_ident w = true -> starts_delim s = true ->
  lex (w ++ s) = TWord w :: lex s.
Proof.
  intros H Hs. destruct (is_ident_word _ H) as [Hne Hw].
  apply lex_word; assumption.
Qed.

Lemma lex_select_all t :
  is_ident t = true ->
  lex (select_all_query t) = [TWord "SELECT"; TStar; TWord "FROM"; TWord t].
Proof.
  intros H.
  change (select_all_query t)
    with ((nl ++ "        SELECT" ++ nl ++ "            *" ++ nl
              ++ "        FROM" ++ nl ++ "            ")
            ++ t ++ (nl ++ "        "))%string.
  rewrite lex_clean by (vm_compute; reflexivity).
  rewrite (lex_ident _ _ H) by reflexivity.
  vm_compute. reflexivity.
Qed.


Lemma parse_select_all t :
  is_ident t = true ->
  parse (lex (select_all_query t)) = Some (SSelect false PStar t None).
Proof.
  intros H. rewrite (lex_select_all _ H).
  cbn -[is_ident]. rewrite H. reflexivity.
Qed.


Lemma placeholders_SS n :
  placeholders (S (S n)) = ("?, " ++ placeholders (S n))%string.
Proof. reflexivity. Qed.

Lemma lex_placeholders n :
  lex (placeholders (S n) ++ ")") = param_tokens n.
Proof.
  induction n as [|n IH]; [reflexivity|].
  rewrite placeholders_SS, append_assoc.
  rewrite lex_clean by reflexivity.
  rewrite IH. reflexivity.
Qed.

Lemma parse_param_tokens n : parse_params (param_tokens n) = Some (S n).
Proof.
  induction n as [|n IH]; [reflexivity|].
  cbn [param_tokens parse_params]. rewrite IH. reflexivity.
Qed.

Lemma count_char_placeholders n : count_char "?" (placeholders n) = n.
Proof.
  destruct n as [|n]; [reflexivity|].
  induction n as [|n IH]; [reflexivity|].
  rewrite placeholders_SS.
  change (count_char "?" ("?, " ++ placeholders (S n))%string)
    with (S (count_char "?" (placeholders (S n)))).
  rewrite IH. reflexivity.
Qed.

Lemma lex_insert t n :
  is_ident t = true ->
  lex (insert_query t (S n))
  = TWord "INSERT" :: TWord "INTO" :: TWord t :: TWord "VALUES" :: TLParen
      :: param_tokens n.
Proof.
  intros H.
  change (insert_query t (S n))
    with ("INSERT INTO " ++ t ++ " VALUES (" ++ placeholders (S n) ++ ")")%string.
  rewrite lex_clean by reflexivity.
  rewrite (lex_ident _ _ H) by reflexivity.
  change (" VALUES (" ++ placeholders (S n) ++ ")")%string
    with (" VALUES (" ++ (placeholders (S n) ++ ")"))%string.
  rewrite lex_clean by reflexivity.
  rewrite lex_placeholders. reflexivity.
Qed.

(** For a bare identifier the statement the engine compiles has as many
    parameter slots as the query was built for. *)
Lemma parse_insert_query t n :
  is_ident t = true ->
  parse (lex (insert_query t (S n))) = Some (SInsert t (S n)).
Proof.
  intros H. rewrite (lex_insert _ _ H).
  cbn -[is_ident param_tokens parse_params].
  rewrite H, parse_param_tokens. reflexivity.
Qed.

(** ** Parameter slots of [insert_records] *)

Lemma step_all_arity name k seq c :
  (exists r, In r seq /\ List.length r <> k) ->
  exists e c', step_all (SInsert name k) seq c = (Some e, c').
Proof.
  revert c. induction seq as [|r0 seq IH]; intros c [r [Hin Hlen]].
  - destruct Hin.
  - cbn [step_all].
    destruct (step (SInsert name k) r0 (working c)) as [e|[rs db']] eqn:Es;
      [eexists _, _; reflexivity|].
    apply IH. destruct Hin as [->|Hin]; [|exists r; split; assumption].
    exfalso. unfold step in Es.
    destruct (Nat.eqb (List.length r) k) eqn:E;
      [apply Nat.eqb_eq in E; contradiction | discriminate Es].
Qed.

Lemma conn_executemany_arity q seq c r :
  In r seq -> List.length r <> List.length (hd [] seq) ->
  exists e c', conn_executemany q seq c = (Some e, c').
Proof.
  intros Hin Hlen. unfold conn_executemany.
  destruct (prepare q (working c)) as [e|s]; [eexists _, _; reflexivity|].
  destruct s; cbn [is_dml]; try (eexists _, _; reflexivity).
  apply step_all_arity.
  destruct (Nat.eq_dec (List.length r) n_params) as [Hr|Hr].
  - exists (hd [] seq). split.
    + destruct seq; [destruct Hin | left; reflexivity].
    + congruence.
  - exists r. split; assumption.
Qed.

Lemma absent_table_raises_witness :
  fst (tables fixture_handler) = Ok [VText "test"]
  /\ ~ In (VText "test-test") [VText "test"]
  /\ delete_table "test-test" fixture_handler
     = (Raise (TableNotFoundError "test-test"), fixture_handler).
Proof.
  assert (H1 : fst (tables fixture_handler) = Ok [VText "test"])
    by reflexivity.
  assert (H2 : ~ In (VText "test-test") [VText "test"]).
  { intros [H|[]]. discriminate H. }
  split; [exact H1|]. split; [exact H2|].
  apply (absent_table_raises fixture_handler "test-test" [VText "test"] H1 H2).
Defined.

Lemma empty_payload_raises_witness :
  fst (tables fixture_handler) = Ok [VText "test"]
  /\ In (VText "test") [VText "test"]
  /\ insert_records "test" [] fixture_handler
     = (Raise (ValueError "add data is empty."), fixture_handler).
Proof.
  assert (H1 : fst (tables fixture_handler) = Ok [VText "test"])
    by reflexivity.
  assert (H2 : In (VText "test") [VText "test"]) by (left; reflexivity).
  split; [exact H1|]. split; [exact H2|].
  apply (empty_payload_raises fixture_handler "test" [VText "test"] H1 H2).
Defined.

Lemma precondition_error_atomic_witness :
  run_call (Call_insert_records "test" []) fixture_handler
  = (Raise (ValueError "add data is empty."), fixture_handler)
  /\ precondition_error (ValueError "add data is empty.") = true
  /\ fixture_handler = fixture_handler.
Proof.
  assert (H1 : run_call (Call_insert_records "test" []) fixture_handler
               = (Raise (ValueError "add data is empty."), fixture_handler))
    by reflexivity.
  split; [exact H1|]. split; [reflexivity|].
  exact (precondition_error_atomic _ _ _ _ H1 eq_refl).
Defined.

(** ** The catalog listing *)

(** C7, as stated, fails: on a database that holds an [AUTOINCREMENT]
    table, [tables] also returns [sqlite_sequence], which is not a user
    table. *)
Lemma tables_lists_internal_tables :
  fst (tables (init "test.db" autoincrement_file))
  = Ok [VText "a"; VText "sqlite_sequence"]
  /\ user_table_names autoincrement_file = [VText "a"]
  /\ fst (tables (init "test.db" autoincrement_file))
     <> Ok (user_table_names autoincrement_file).
Proof.
  split; [reflexivity|]. split; [reflexivity|].
  intros H. vm_compute in H. discriminate H.
Qed.

(** C7, amended: [tables] returns the [name] of every [sqlite_master] entry
    whose [type] is ['table'], the engine's own tables included and indexes
    left out, in catalog order and unsorted; every user table is among them;
    the handler state is not touched. *)
Theorem tables_lists_catalog_tables (h : DBHandler) :
  tables h
  = (Ok (map (fun e => VText (entry_name e))
             (filter is_table (working (connector h)))), h)
  /\ (forall e, In e (working (connector h)) -> user_table e = true ->
                In (VText (entry_name e))
                   (map (fun e => VText (entry_name e))
                        (filter is_table (working (connector h))))).
Proof.
  split; [apply tables_spec|].
  intros e Hin Hu. apply in_map_iff. exists e. split; [reflexivity|].
  apply filter_In. split; [exact Hin|].
  unfold user_table in Hu. apply andb_true_iff in Hu as [Hu _]. exact Hu.
Qed.

(** ** Names and lookups *)

Lemma name_eqb_refl a : name_eqb a a = true.
Proof. unfold name_eqb. apply String.eqb_refl. Qed.


Lemma name_eqb_sym a b : name_eqb a b = name_eqb b a.
Proof. unfold name_eqb. apply String.eqb_sym. Qed.


Lemma name_eqb_congr a b c :
  name_eqb a b = true -> name_eqb a c = name_eqb b c.
Proof.
  intros H. unfold name_eqb in *. apply String.eqb_eq in H. rewrite H.
  reflexivity.
Qed.

Lemma reserved_not_master t : reserved_name t = false -> is_master t = false.
Proof.
  unfold reserved_name, is_master, name_eqb. intros H.
  destruct (String.eqb_spec (lower t) (lower "sqlite_master")) as [E|_].
  - rewrite E in H. discriminate H.
  - destruct (String.eqb_spec (lower t) (lower "sqlite_schema")) as [E|_].
    + rewrite E in H. discriminate H.
    + reflexivity.
Qed.

Lemma find_table_In t db e :
  find_table t db = Some e ->
  In e db /\ is_table e = true /\ name_eqb (entry_name e) t = true.
Proof.
  unfold find_table. intros H. apply find_some in H as [Hin Hp].
  apply andb_true_iff in Hp as [H1 H2]. auto.
Qed.

Lemma find_table_listed t db cols rows :
  find_table t db = Some (ETable t cols rows) -> In (VText t) (table_names db).
Proof.
  intros H. apply find_table_In in H as [Hin _].
  unfold table_names. apply in_map_iff.
  exists (ETable t cols rows). split; [reflexivity|].
  apply filter_In. split; [exact Hin | reflexivity].
Qed.

Lemma wf_database_entry db e :
  wf_database db = true -> In e db -> wf_entry e = true.
Proof.
  unfold wf_database. intros H Hin. apply andb_true_iff in H as [_ H].
  rewrite forallb_forall in H. apply H, Hin.
Qed.

Lemma wf_entry_table n cols rows :
  wf_entry (ETable n cols rows) = true ->
  is_master n = false /\ cols <> [] /\ distinct_names (map fst cols) = true
  /\ Forall (fun r => List.length r = List.length cols) rows.
Proof.
  cbn [wf_entry]. intros H.
  apply andb_true_iff in H as [H H4]. apply andb_true_iff in H as [H H3].
  apply andb_true_iff in H as [H1 H2].
  apply negb_true_iff in H1. apply negb_true_iff in H2.
  repeat split; try assumption.
  - intros ->. discriminate H2.
  - apply Forall_forall. intros r Hr. rewrite forallb_forall in H4.
    apply Nat.eqb_eq, H4, Hr.
Qed.

(** ** Appending rows *)

Lemma append_rows_nil t e : append_rows t [] e = e.
Proof.
  destruct e as [m cols rows|n tb]; [|reflexivity].
  cbn [append_rows]. rewrite app_nil_r. destruct (name_eqb m t); reflexivity.
Qed.

Lemma append_rows_cons t r rs e :
  append_rows t rs (append_row t r e) = append_rows t (r :: rs) e.
Proof.
  destruct e as [m cols rows|n tb]; [|reflexivity].
  cbn [append_row append_rows].
  destruct (name_eqb m t) eqn:E; cbn [append_rows]; rewrite E.
  - rewrite <- app_assoc. reflexivity.
  - reflexivity.
Qed.

Lemma find_table_append_rows t rs db m cols rows :
  find_table t db = Some (ETable m cols rows) ->
  find_table t (map (append_rows t rs) db)
  = Some (ETable m cols (rows ++ rs)).
Proof.
  unfold find_table. induction db as [|e db IH]; [discriminate|].
  cbn [find map].
  destruct e as [m0 cols0 rows0|n tb]; cbn [append_rows is_table entry_name andb].
  - destruct (name_eqb m0 t) eqn:E; cbn [is_table entry_name andb].
    + rewrite E. intros H. injection H as -> -> ->. reflexivity.
    + rewrite E. exact IH.
  - exact IH.
Qed.

Lemma table_names_append_rows t rs db :
  table_names (map (append_rows t rs) db) = table_names db.
Proof.
  unfold table_names. induction db as [|e db IH]; [reflexivity|].
  cbn [map filter].
  destruct e as [m cols rows|n tb]; cbn [append_rows].
  - destruct (name_eqb m t); cbn [is_table map entry_name]; rewrite IH;
      reflexivity.
  - cbn [is_table]. exact IH.
Qed.

Lemma append_row_rows t r e : append_row t r e = append_rows t [r] e.
Proof. destruct e; reflexivity. Qed.

(** *** Values that fit their columns *)

Lemma fits_apply a v : fits a v = true -> apply_affinity a v = Some v.
Proof.
  destruct v as [|z|s]; destruct a; cbn; intros H;
    try reflexivity; try discriminate H;
    rewrite andb_false_r in H; discriminate H.
Qed.

Lemma fits_bindable a v : fits a v = true -> bindable v = true.
Proof.
  destruct v as [|z|s]; cbn; intros H; try reflexivity.
  apply andb_true_iff in H as [H _]. exact H.
Qed.

Lemma row_fits_length cols r :
  row_fits cols r = true -> List.length r = List.length cols.
Proof.
  revert r. induction cols as [|c cols IH]; intros [|v r] H;
    try discriminate H; [reflexivity|].
  cbn [row_fits] in H. apply andb_true_iff in H as [_ H].
  cbn [List.length]. rewrite (IH _ H). reflexivity.
Qed.

Lemma row_fits_store cols r : row_fits cols r = true -> store_row cols r = Some r.
Proof.
  revert r. induction cols as [|c cols IH]; intros [|v r] H;
    try discriminate H; [reflexivity|].
  cbn [row_fits] in H. apply andb_true_iff in H as [Hv H].
  cbn [store_row]. rewrite (fits_apply _ _ Hv), (IH _ H). reflexivity.
Qed.

Lemma row_fits_bindable cols r :
  row_fits cols r = true -> forallb bindable r = true.
Proof.
  revert r. induction cols as [|c cols IH]; intros [|v r] H;
    try discriminate H; [reflexivity|].
  cbn [row_fits] in H. apply andb_true_iff in H as [Hv H].
  cbn [forallb]. rewrite (fits_bindable _ _ Hv), (IH _ H). reflexivity.
Qed.

Lemma step_insert_fits t db m cols rows r :
  find_table t db = Some (ETable m cols rows) ->
  row_fits cols r = true ->
  step (SInsert t (List.length cols)) r db
  = inr (no_rows, map (append_row t r) db).
Proof.
  intros Hf Hr. unfold step.
  rewrite (row_fits_length _ _ Hr), Nat.eqb_refl. cbn [negb].
  rewrite (row_fits_bindable _ _ Hr). cbn [negb].
  rewrite Hf, (row_fits_store _ _ Hr). reflexivity.
Qed.

Lemma step_all_insert t m cols rows values c :
  in_transaction c = true ->
  find_table t (working c) = Some (ETable m cols rows) ->
  Forall (fun r => row_fits cols r = true) values ->
  step_all (SInsert t (List.length cols)) values c
  = (None, {| committed := committed c;
              working := map (append_rows t values) (working c);
              in_transaction := true |}).
Proof.
  revert c rows. induction values as [|r values IH]; intros c rows Htx Hf Hall.
  - cbn [step_all]. rewrite (map_ext _ id (append_rows_nil t)), map_id.
    destruct c; cbn in *; subst; reflexivity.
  - inversion Hall as [|? ? Hr Hrest]; subst.
    cbn [step_all]. rewrite (step_insert_fits _ _ _ _ _ _ Hf Hr).
    rewrite (map_ext _ _ (append_row_rows t r)).
    rewrite (IH _ (rows ++ [r])); try assumption.
    + cbn [store committed working in_transaction]. rewrite Htx.
      rewrite map_map.
      rewrite (map_ext _ _ (fun e => eq_trans
                 (f_equal (append_rows t values) (eq_sym (append_row_rows t r e)))
                 (append_rows_cons t r values e))).
      reflexivity.
    + cbn [store working]. apply find_table_append_rows, Hf.
Qed.

(** ** Reading a table back *)

Lemma conn_execute_select t (distinct : bool) c m cols rows :
  parse (lex (if distinct then select_distinct_query t
              else select_all_query t))
  = Some (SSelect distinct PStar t None) ->
  is_master t = false ->
  find_table t (working c) = Some (ETable m cols rows) ->
  conn_execute (if distinct then select_distinct_query t
                else select_all_query t) [] c
  = (inr {| description := Some (map fst cols);
            fetched := if distinct then distinct_rows [] rows else rows |},
     c).
Proof.
  intros Hp Hm Hf. unfold conn_execute, prepare. rewrite Hp.
  cbn [begin_for is_dml is_query]. unfold step.
  cbn [List.length Nat.eqb negb]. unfold run_select, resolve_from.
  rewrite Hm, Hf. reflexivity.
Qed.

Lemma fetchall_spec h t m cols rows :
  is_ident t = true ->
  is_master t = false ->
  listed t h ->
  find_table t (working (connector h)) = Some (ETable m cols rows) ->
  fetchall t h
  = (Ok rows, {| DB_file_path := DB_file_path h; connector := connector h;
                 cursor := [] |}).
Proof.
  intros Hid Hm Hl Hf.
  rewrite fetchall_guard, (guard_present _ _ _ Hl).
  unfold exec_query, bind, cursor_execute.
  rewrite (conn_execute_select t false _ m cols rows
             (parse_select_all _ Hid) Hm Hf).
  reflexivity.
Qed.

Lemma fetchall_to_dataframe_spec h t m cols rows :
  is_ident t = true ->
  is_master t = false ->
  listed t h ->
  find_table t (working (connector h)) = Some (ETable m cols rows) ->
  fetchall_to_dataframe t h
  = (Ok {| df_columns := map fst cols; df_rows := rows |}, h).
Proof.
  intros Hid Hm Hl Hf.
  rewrite fetchall_to_dataframe_guard, (guard_present _ _ _ Hl).
  unfold exec_query_to_dataframe, pd_read_sql, read_sql.
  rewrite (conn_execute_select t false _ m cols rows
             (parse_select_all _ Hid) Hm Hf).
  cbn [description fetched]. rewrite with_connector_same. reflexivity.
Qed.

(** ** Insert, then fetch *)

Lemma insert_records_spec h t cols rows values :
  is_ident t = true ->
  cols <> [] ->
  find_table t (working (connector h)) = Some (ETable t cols rows) ->
  values <> [] ->
  Forall (fun r => row_fits cols r = true) values ->
  insert_records t values h
  = (Ok tt,
     {| DB_file_path := DB_file_path h;
        connector :=
          connect (map (append_rows t values) (working (connector h)));
        cursor := [] |}).
Proof.
  intros Hid Hcols Hf Hne Hall.
  rewrite insert_records_guard,
    (guard_present _ _ _ (find_table_listed _ _ _ _ Hf)).
  destruct values as [|v0 values]; [congruence|].
  cbn [List.length Nat.eqb hd].
  inversion Hall as [|? ? Hv0 _]; subst.
  rewrite (row_fits_length _ _ Hv0).
  destruct cols as [|col cols]; [congruence|].
  unfold bind, cursor_executemany, conn_executemany, prepare.
  cbn [List.length].
  rewrite (parse_insert_query _ _ Hid), Hf.
  cbn [List.length]. rewrite Nat.eqb_refl. cbn [is_dml begin_for].
  change (S (List.length cols)) with (List.length (col :: cols)).
  rewrite (step_all_insert t t (col :: cols) rows)
    by (exact Hall || exact Hf || reflexivity).
  reflexivity.
Qed.

(** C6, as stated, fails.  A row of the wrong arity, or a table whose name
    is not a bare identifier, makes [insert_records] raise from the engine,
    and nothing is fetched.  A row of the right arity is stored as the
    columns' declared types have it: on the fixture's table
    [(id INTEGER, name TEXT)] the row [('3', 4)] is fetched as [(3, '4')].
    An integer outside 64 bits is refused when it is bound. *)
Lemma insert_append_fails :
  (In (VText "test") (table_names (working (connector fixture_handler)))
   /\ exists msg,
       fst ((insert_records "test" [[VInt 3]] ;;; fetchall "test")
              fixture_handler)
       = Raise (OperationalError msg))
  /\ (In (VText "test-test")
         (table_names (working (connector dashed_handler)))
      /\ exists msg,
          fst ((insert_records "test-test" [[VInt 3; VText "te3"]] ;;;
                fetchall "test-test") dashed_handler)
          = Raise (OperationalError msg))
  /\ (fst ((insert_records "test" [[VText "3"; VInt 4]] ;;; fetchall "test")
             fixture_handler)
      = Ok (df_rows fixture_df ++ [[VInt 3; VText "4"]])
      /\ df_rows fixture_df ++ [[VInt 3; VText "4"]]
         <> df_rows fixture_df ++ [[VText "3"; VInt 4]])
  /\ (exists msg,
         fst ((insert_records "test"
                 [[VInt 9223372036854775808; VText "te3"]] ;;;
               fetchall "test") fixture_handler)
         = Raise (OverflowError msg)).
Proof.
  split; [split; [left; reflexivity | eexists; vm_compute; reflexivity]|].
  split; [split; [left; reflexivity | eexists; vm_compute; reflexivity]|].
  split; [split; [vm_compute; reflexivity | discriminate]|].
  eexists; vm_compute; reflexivity.
Qed.

(** C6, amended: on a table whose name is a bare identifier, holding
    [rows], [insert_records] with a non-empty list of rows that all have the
    table's arity and hold, in each column, a value the column stores as it
    is given (NULL; an integer of 64 bits in a column declared INTEGER,
    NUMERIC or without a type; text in a column declared TEXT or without a
    type) returns, and [fetchall] then returns [rows] followed by the new
    rows in the order given. *)
Theorem insert_then_fetch_appends
        (h : DBHandler) (t : string) (cols : list column)
        (rows values : list row) :
  is_ident t = true ->
  wf_database (working (connector h)) = true ->
  find_table t (working (connector h)) = Some (ETable t cols rows) ->
  values <> [] ->
  Forall (fun r => row_fits cols r = true) values ->
  exists h1 h2,
    insert_records t values h = (Ok tt, h1)
    /\ fetchall t h1 = (Ok (rows ++ values), h2).
Proof.
  intros Hid Hwf Hf Hne Hall.
  destruct (find_table_In _ _ _ Hf) as [Hin _].
  destruct (wf_entry_table _ _ _ (wf_database_entry _ _ Hwf Hin))
    as [Hm [Hcols _]].
  eexists _, _. split.
  - apply (insert_records_spec h t cols rows values); assumption.
  - apply (fetchall_spec _ t t cols (rows ++ values) Hid Hm).
    + unfold listed. cbn [connector working connect].
      rewrite table_names_append_rows.
      exact (find_table_listed _ _ _ _ Hf).
    + cbn [connector working connect].
      apply find_table_append_rows, Hf.
Qed.

Lemma insert_then_fetch_appends_witness :
  exists h1 h2,
    insert_records "test" [[VInt 3; VText "te3"]; [VInt 4; VText "te4"]]
                   fixture_handler = (Ok tt, h1)
    /\ fetchall "test" h1
       = (Ok ([[VInt 1; VText "te1"]; [VInt 2; VText "te2"];
               [VInt 2; VText "te2"]]
                ++ [[VInt 3; VText "te3"]; [VInt 4; VText "te4"]]), h2).
Proof.
  apply (insert_then_fetch_appends fixture_handler "test"
           [("id", Some "INTEGER"); ("name", Some "TEXT")]).
  - reflexivity.
  - reflexivity.
  - reflexivity.
  - discriminate.
  - repeat constructor.
Defined.

(** ** The statement [insert_records] builds *)

Lemma step_all_app s l1 l2 c :
  step_all s (l1 ++ l2) c
  = match step_all s l1 c with
    | (None, c1) => step_all s l2 c1
    | failed => failed
    end.
Proof.
  revert c. induction l1 as [|r l1 IH]; intros c; [reflexivity|].
  cbn [app step_all].
  destruct (step s r (working c)) as [e|[rs db']]; [reflexivity|]. apply IH.
Qed.

(** The rows before the first row of another length are written in the
    open transaction, and the call stops at that row. *)
Lemma insert_records_partial_spec h t cols rows good rest bad :
  is_ident t = true ->
  cols <> [] ->
  find_table t (working (connector h)) = Some (ETable t cols rows) ->
  good <> [] ->
  Forall (fun r => row_fits cols r = true) good ->
  List.length bad <> List.length cols ->
  insert_records t (good ++ bad :: rest) h
  = (Raise (ProgrammingError "Incorrect number of bindings supplied."),
     {| DB_file_path := DB_file_path h;
        connector :=
          {| committed := committed (connector h);
             working := map (append_rows t good) (working (connector h));
             in_transaction := true |};
        cursor := [] |}).
Proof.
  intros Hid Hcols Hf Hne Hall Hbad.
  rewrite insert_records_guard,
    (guard_present _ _ _ (find_table_listed _ _ _ _ Hf)).
  destruct good as [|g good]; [congruence|].
  cbn [app List.length Nat.eqb hd].
  inversion Hall as [|? ? Hg _]; subst. rewrite (row_fits_length _ _ Hg).
  destruct cols as [|col cols]; [congruence|].
  unfold bind, cursor_executemany, conn_executemany, prepare.
  cbn [List.length].
  rewrite (parse_insert_query _ _ Hid), Hf.
  cbn [List.length]. rewrite Nat.eqb_refl. cbn [is_dml begin_for].
  change (g :: good ++ bad :: rest) with ((g :: good) ++ bad :: rest).
  change (S (List.length cols)) with (List.length (col :: cols)).
  rewrite step_all_app, (step_all_insert t t (col :: cols) rows)
    by (exact Hall || exact Hf || reflexivity).
  cbn [step_all working]. unfold step.
  apply Nat.eqb_neq in Hbad. rewrite Hbad. reflexivity.
Qed.

(** A first row of another length than the table stops the call when the
    statement is compiled. *)
Lemma insert_records_misfit_spec h t cols rows first rest :
  is_ident t = true ->
  find_table t (working (connector h)) = Some (ETable t cols rows) ->
  List.length first <> List.length cols ->
  exists msg h1,
    insert_records t (first :: rest) h = (Raise (OperationalError msg), h1)
    /\ connector h1 = connector h.
Proof.
  intros Hid Hf Hlen.
  rewrite insert_records_guard,
    (guard_present _ _ _ (find_table_listed _ _ _ _ Hf)).
  cbn [List.length Nat.eqb hd].
  unfold bind, cursor_executemany, conn_executemany, prepare.
  destruct first as [|v first].
  - destruct (parse (lex (insert_query t (List.length (@nil value)))))
      as [s|] eqn:Ep.
    + exfalso. revert Ep.
      change (insert_query t (List.length (@nil value)))
        with ("INSERT INTO " ++ t ++ " VALUES (" ++ ")")%string.
      rewrite (lex_clean_tokens "INSERT INTO " [TWord "INSERT"; TWord "INTO"])
        by reflexivity.
      rewrite (lex_ident _ _ Hid) by reflexivity.
      cbn [app].
      change (lex (" VALUES (" ++ ")")%string)
        with [TWord "VALUES"; TLParen; TRParen].
      change (parse [TWord "INSERT"; TWord "INTO"; TWord t; TWord "VALUES";
                     TLParen; TRParen])
        with (if is_ident t
              then option_map (SInsert t) (parse_params [TRParen])
              else None).
      rewrite Hid. discriminate.
    + eexists _, _. split; reflexivity.
  - cbn [List.length]. rewrite (parse_insert_query _ _ Hid), Hf.
    apply Nat.eqb_neq in Hlen. cbn [List.length] in Hlen |- *.
    rewrite Hlen. eexists _, _. split; reflexivity.
Qed.

Lemma count_char_app c a b :
  count_char c (a ++ b)%string = count_char c a + count_char c b.
Proof.
  induction a as [|x a IH]; [reflexivity|].
  cbn [String.append count_char]. rewrite IH. apply Nat.add_assoc.
Qed.

Lemma word_chars_no_qmark w :
  all_chars is_word_char w = true -> count_char "?" w = 0.
Proof.
  induction w as [|c w IH]; [reflexivity|].
  cbn [all_chars count_char]. intros H.
  apply andb_true_iff in H as [Hc Hw]. rewrite (IH Hw).
  destruct (Ascii.eqb_spec c "?") as [->|_]; [discriminate Hc | reflexivity].
Qed.

(** C10: on a listed table, [insert_records] with the rows
    [first :: rest] runs [executemany] on the text
    [INSERT INTO t VALUES (?, ..., ?)] built from the length of [first]
    alone, then commits.  For a bare table name that text holds exactly
    [len(first)] question marks and the engine compiles as many slots.
    Every row is bound against that count: a list holding a row of another
    length than [first] makes the call raise from the engine.  On a table
    of [cols]: when [first] has not the table's column count the call
    raises [OperationalError] with the connection unchanged, whatever the
    other rows are, rows of the table's column count included; when the
    rows up to some row fit the table and that row has another length than
    [first], the call raises [ProgrammingError]. *)
Theorem insert_slots_follow_first_row
        (h : DBHandler) (t : string) (ts : list value)
        (first : row) (rest : list row) :
  fst (tables h) = Ok ts ->
  In (VText t) ts ->
  insert_records t (first :: rest) h
  = (cursor_executemany
       ("INSERT INTO " ++ t ++ " VALUES ("
          ++ placeholders (List.length first) ++ ")")%string
       (first :: rest) ;;;
     commit_) h
  /\ (is_ident t = true ->
      count_char "?" ("INSERT INTO " ++ t ++ " VALUES ("
                        ++ placeholders (List.length first) ++ ")")%string
      = List.length first)
  /\ (is_ident t = true -> first <> [] ->
      parse (lex ("INSERT INTO " ++ t ++ " VALUES ("
                    ++ placeholders (List.length first) ++ ")")%string)
      = Some (SInsert t (List.length first)))
  /\ (forall r,
         In r rest -> List.length r <> List.length first ->
         exists e h',
           insert_records t (first :: rest) h = (Raise e, h')
           /\ engine_error e = true)
  /\ (is_ident t = true ->
      forall cols rows,
        find_table t (working (connector h)) = Some (ETable t cols rows) ->
        (List.length first <> List.length cols ->
         exists msg h',
           insert_records t (first :: rest) h
           = (Raise (OperationalError msg), h')
           /\ connector h' = connector h)
        /\ (forall good bad rest',
               rest = good ++ bad :: rest' ->
               first <> [] ->
               Forall (fun r => row_fits cols r = true) (first :: good) ->
               List.length bad <> List.length first ->
               exists msg h',
                 insert_records t (first :: rest) h
                 = (Raise (ProgrammingError msg), h'))).
Proof.
  intros Hts Hin.
  assert (Hl : listed t h) by (apply (tables_listed h t ts Hts); exact Hin).
  split; [|split; [|split; [|split]]].
  - rewrite insert_records_guard, (guard_present _ _ _ Hl). reflexivity.
  - intros Hid. destruct (is_ident_word _ Hid) as [_ Hw].
    rewrite !count_char_app, (word_chars_no_qmark _ Hw),
      count_char_placeholders.
    cbn. lia.
  - intros Hid Hrow. destruct first as [|v r0]; [congruence|].
    apply (parse_insert_query t (List.length r0) Hid).
  - intros r Hr Hlen.
    rewrite insert_records_guard, (guard_present _ _ _ Hl).
    cbn [List.length Nat.eqb hd]. unfold bind, cursor_executemany.
    destruct (conn_executemany_arity
                (insert_query t (List.length first))
                (first :: rest) (connector h) r (or_intror Hr) Hlen)
      as [e [c' E]].
    rewrite E. eexists _, _. split; [reflexivity|].
    exact (conn_executemany_error _ _ _ _ _ E).
  - intros Hid cols rows Hf. split.
    + intros Hlen.
      exact (insert_records_misfit_spec h t cols rows first rest Hid Hf Hlen).
    + intros good bad rest' -> Hne Hall Hbad.
      assert (Hfirst : List.length first = List.length cols).
      { inversion Hall; subst. apply row_fits_length. assumption. }
      assert (Hcols : cols <> []).
      { intros ->. destruct first; [congruence | discriminate Hfirst]. }
      assert (Hbad' : List.length bad <> List.length cols) by congruence.
      eexists _, _.
      exact (insert_records_partial_spec h t cols rows (first :: good)
               rest' bad Hid Hcols Hf ltac:(discriminate) Hall Hbad').
Qed.

(** The two ways a ragged list fails: at compilation when the first row
    does not fit the table, at binding when a later row does not fit the
    statement. *)
Example insert_records_ragged :
  (exists msg,
      fst (insert_records "test" [[VInt 4]; [VInt 3; VText "te3"]]
                          fixture_handler)
      = Raise (OperationalError msg))
  /\ (exists msg,
         fst (insert_records "test" [[VInt 3; VText "te3"]; [VInt 4]]
                             fixture_handler)
         = Raise (ProgrammingError msg)).
Proof. split; eexists; vm_compute; reflexivity. Qed.

Lemma insert_slots_follow_first_row_witness :
  insert_records "test" [[VInt 4]; [VInt 3; VText "te3"]] fixture_handler
  = (cursor_executemany "INSERT INTO test VALUES (?)"
       [[VInt 4]; [VInt 3; VText "te3"]] ;;;
     commit_) fixture_handler
  /\ exists msg h',
      insert_records "test" [[VInt 4]; [VInt 3; VText "te3"]] fixture_handler
      = (Raise (OperationalError msg), h')
      /\ connector h' = connector fixture_handler.
Proof.
  destruct (insert_slots_follow_first_row
              fixture_handler "test" [VText "test"]
              [VInt 4] [[VInt 3; VText "te3"]]
              eq_refl (or_introl eq_refl)) as [Ha [_ [_ [_ He]]]].
  split; [exact Ha|].
  destruct (He eq_refl [("id", Some "INTEGER"); ("name", Some "TEXT")]
               (df_rows fixture_df) eq_refl) as [Hm _].
  apply Hm. cbn. lia.
Defined.

(** ** Frames and their tables *)

Lemma frame_schema_names i labels rows :
  map fst (frame_schema i labels rows) = labels.
Proof.
  revert i. induction labels as [|l ls IH]; intros i; [reflexivity|].
  cbn [frame_schema map fst]. rewrite IH. reflexivity.
Qed.

Lemma aligned_value_cons l ls v vs c :
  aligned_value (l :: ls) (v :: vs) c
  = if name_eqb l c then v else aligned_value ls vs c.
Proof.
  unfold aligned_value. cbn [column_index].
  destruct (name_eqb l c); [reflexivity|].
  destruct (column_index c ls); reflexivity.
Qed.

Lemma distinct_names_head n ns x :
  distinct_names (n :: ns) = true -> In x ns -> name_eqb n x = false.
Proof.
  cbn [distinct_names]. intros H Hin.
  apply andb_true_iff in H as [H _]. apply negb_true_iff in H.
  destruct (name_eqb n x) eqn:E; [|reflexivity].
  assert (existsb (name_eqb n) ns = true)
    by (apply existsb_exists; exists x; auto).
  congruence.
Qed.

Lemma distinct_names_tail n ns :
  distinct_names (n :: ns) = true -> distinct_names ns = true.
Proof. cbn [distinct_names]. intros H. apply andb_true_iff in H. apply H. Qed.

Lemma align_labels labels r :
  distinct_names labels = true ->
  List.length r = List.length labels ->
  map (aligned_value labels r) labels = r.
Proof.
  revert r. induction labels as [|l ls IH]; intros [|v vs] Hd Hlen;
    try discriminate Hlen; [reflexivity|].
  cbn [map]. rewrite aligned_value_cons, name_eqb_refl. f_equal.
  rewrite <- (IH vs (distinct_names_tail _ _ Hd)) at 2
    by (injection Hlen; auto).
  apply map_ext_in. intros c Hc.
  rewrite aligned_value_cons, (distinct_names_head _ _ _ Hd Hc). reflexivity.
Qed.

Lemma align_frame_rows labels rows0 rows :
  distinct_names labels = true ->
  Forall (fun r => List.length r = List.length labels) rows ->
  map (align_row (frame_schema 0 labels rows0) labels) rows = rows.
Proof.
  intros Hd Hall. induction Hall as [|r rows Hr _ IH]; [reflexivity|].
  cbn [map]. rewrite IH. f_equal.
  unfold align_row.
  rewrite <- (map_map fst (aligned_value labels r)), frame_schema_names.
  apply align_labels; assumption.
Qed.

Lemma wf_frame_parts df :
  wf_frame df = true ->
  df_columns df <> []
  /\ distinct_names (df_columns df) = true
  /\ Forall (fun r => List.length r = List.length (df_columns df))
            (df_rows df).
Proof.
  unfold wf_frame. intros H.
  apply andb_true_iff in H as [H H3]. apply andb_true_iff in H as [H1 H2].
  apply negb_true_iff in H1. repeat split; try assumption.
  - intros E. rewrite E in H1. discriminate H1.
  - apply Forall_forall. intros r Hr. rewrite forallb_forall in H3.
    apply Nat.eqb_eq, H3, Hr.
Qed.

(** ** Replacing a table *)

Lemma find_entry_none t db :
  find_entry t db = None <->
  (forall e, In e db -> name_eqb (entry_name e) t = false).
Proof.
  unfold find_entry. split.
  - intros H e Hin. exact (find_none _ _ H e Hin).
  - intros H. induction db as [|x db IH]; [reflexivity|].
    cbn [find]. rewrite (H x (or_introl eq_refl)).
    apply IH. intros e He. apply H. right. exact He.
Qed.

Lemma find_table_none_of_entry t db :
  find_entry t db = None -> find_table t db = None.
Proof.
  rewrite find_entry_none. intros H. unfold find_table.
  induction db as [|x db IH]; [reflexivity|].
  cbn [find]. rewrite (H x (or_introl eq_refl)), andb_false_r.
  apply IH. intros e He. apply H. right. exact He.
Qed.

Lemma has_table_In t db :
  has_table t db = true <-> exists cols rows, In (ETable t cols rows) db.
Proof.
  unfold has_table. rewrite existsb_exists. split.
  - intros [e [Hin Hp]]. apply andb_true_iff in Hp as [Ht Hn].
    destruct e as [n cols rows|n tb]; [|discriminate].
    apply String.eqb_eq in Hn. cbn in Hn. subst n. eauto.
  - intros [cols [rows Hin]]. exists (ETable t cols rows).
    split; [exact Hin|]. cbn. apply String.eqb_refl.
Qed.

Lemma find_table_some t db :
  has_table t db = true -> exists e, find_table t db = Some e.
Proof.
  intros H. apply has_table_In in H as [cols [rows Hin]].
  destruct (find_table t db) as [e|] eqn:E; [eauto|].
  unfold find_table in E.
  pose proof (find_none _ _ E _ Hin) as Hn.
  cbn [is_table entry_name andb] in Hn.
  rewrite name_eqb_refl in Hn. discriminate Hn.
Qed.

Lemma drop_entries_free t db :
  distinct_names (map entry_name db) = true ->
  has_table t db = true ->
  find_entry t (drop_entries t db) = None.
Proof.
  intros Hd Hh. apply has_table_In in Hh as [cols [rows Hin]].
  apply find_entry_none. intros e He.
  unfold drop_entries in He. apply filter_In in He as [He Hkeep].
  apply negb_true_iff in Hkeep.
  induction db as [|x db IH]; [destruct Hin|].
  cbn [map] in Hd.
  destruct Hin as [Hx|Hin], He as [Hy|He]; subst.
  - cbn [entry_tbl_name entry_name] in *. exact Hkeep.
  - pose proof (distinct_names_head _ _ (entry_name e) Hd
                  (in_map entry_name _ _ He)) as Hx.
    cbn [entry_name] in Hx. rewrite name_eqb_sym. exact Hx.
  - pose proof (distinct_names_head _ _ t Hd
                  (in_map entry_name _ _ Hin)) as Hx.
    exact Hx.
  - apply IH; [exact (distinct_names_tail _ _ Hd) | exact Hin | exact He].
Qed.

Lemma append_rows_other t rs db :
  find_table t db = None -> map (append_rows t rs) db = db.
Proof.
  unfold find_table. induction db as [|x db IH]; [reflexivity|].
  cbn [find map]. destruct x as [m cols rows|n tb]; cbn [is_table entry_name andb].
  - destruct (name_eqb m t) eqn:E; [discriminate|].
    intros H. cbn [append_rows]. rewrite E, (IH H). reflexivity.
  - intros H. cbn [append_rows]. rewrite (IH H). reflexivity.
Qed.

Lemma find_table_last t base cols rows :
  find_table t base = None ->
  find_table t (base ++ [ETable t cols rows]) = Some (ETable t cols rows).
Proof.
  unfold find_table. induction base as [|x base IH]; cbn [find app].
  - intros _. cbn [is_table entry_name andb].
    rewrite name_eqb_refl. reflexivity.
  - destruct (is_table x && name_eqb (entry_name x) t); [discriminate|].
    exact IH.
Qed.

Lemma find_entry_last_none t base e :
  find_entry t base = None ->
  find_entry t (base ++ [e]) = find_entry t [e].
Proof.
  unfold find_entry. induction base as [|x base IH]; cbn [find app].
  - reflexivity.
  - destruct (name_eqb (entry_name x) t); [discriminate|]. exact IH.
Qed.

(** *** What a frame's own table stores *)

Lemma affinity_integer : affinity_of (Some "INTEGER") = AffInteger.
Proof. reflexivity. Qed.

Lemma affinity_text : affinity_of (Some "TEXT") = AffText.
Proof. reflexivity. Qed.

Lemma apply_affinity_own vals v :
  In v vals ->
  exists v', apply_affinity (affinity_of (sql_type_of vals)) v = Some v'.
Proof.
  intros Hin. unfold sql_type_of.
  destruct vals as [|v0 vals]; [destruct Hin|].
  destruct (forallb is_int (v0 :: vals)) eqn:E.
  - rewrite forallb_forall in E. specialize (E v Hin).
    destruct v; try discriminate E.
    rewrite affinity_integer. eexists. reflexivity.
  - rewrite affinity_text. destruct v; eexists; reflexivity.
Qed.

Lemma apply_affinity_uniform vals v :
  uniform_column vals = true -> In v vals ->
  apply_affinity (affinity_of (sql_type_of vals)) v = Some v.
Proof.
  intros Hu Hin. unfold sql_type_of.
  destruct vals as [|v0 vals]; [destruct Hin|].
  destruct (forallb is_int (v0 :: vals)) eqn:E.
  - rewrite forallb_forall in E. specialize (E v Hin).
    destruct v; try discriminate E.
    rewrite affinity_integer. reflexivity.
  - rewrite affinity_text. unfold uniform_column in Hu.
    apply orb_true_iff in Hu as [Hu|Hu].
    + exfalso.
      assert (Hi : forallb is_int (v0 :: vals) = true).
      { apply forallb_forall. intros x Hx.
        rewrite forallb_forall in Hu. specialize (Hu x Hx).
        destruct x; try discriminate Hu; reflexivity. }
      congruence.
    + rewrite forallb_forall in Hu. specialize (Hu v Hin).
      destruct v; try discriminate Hu; reflexivity.
Qed.

Lemma skipn_cons_nth {A} i (l : list A) v rest d :
  skipn i l = v :: rest -> nth i l d = v /\ skipn (S i) l = rest.
Proof.
  revert l. induction i as [|i IH]; intros l H.
  - cbn [skipn] in H. subst l. split; reflexivity.
  - destruct l as [|x l]; [discriminate H|].
    cbn [skipn] in H. destruct (IH l H) as [H1 H2].
    split; [exact H1 | exact H2].
Qed.

Lemma store_row_nil cols : store_row cols [] = Some [].
Proof. destruct cols; reflexivity. Qed.

Lemma store_row_own i labels rows r :
  In r rows ->
  exists r',
    store_row (frame_schema i labels rows) (skipn i r) = Some r'
    /\ List.length r'
       = Nat.min (List.length labels) (List.length (skipn i r)).
Proof.
  intros Hin. revert i. induction labels as [|l ls IH]; intros i.
  - exists []. split; reflexivity.
  - cbn [frame_schema]. destruct (skipn i r) as [|v rest] eqn:E.
    + exists []. split; reflexivity.
    + destruct (skipn_cons_nth _ _ _ _ VNull E) as [Hn Hs].
      cbn [store_row snd].
      destruct (apply_affinity_own
                  (map (fun r => nth i r VNull) rows) v) as [v' Hv].
      { rewrite <- Hn.
        exact (in_map (fun r => nth i r VNull) _ _ Hin). }
      rewrite Hv. destruct (IH (S i)) as [r' [Hr' Hl]].
      rewrite Hs in Hr', Hl. rewrite Hr'.
      exists (v' :: r'). split; [reflexivity|].
      cbn [List.length Nat.min]. rewrite Hl. reflexivity.
Qed.

Lemma store_row_typed i labels rows r :
  In r rows ->
  (forall j, j < i + List.length labels ->
             uniform_column (map (fun r => nth j r VNull) rows) = true) ->
  List.length (skipn i r) = List.length labels ->
  store_row (frame_schema i labels rows) (skipn i r) = Some (skipn i r).
Proof.
  intros Hin. revert i. induction labels as [|l ls IH]; intros i Hu Hlen.
  - destruct (skipn i r); [reflexivity | discriminate Hlen].
  - cbn [frame_schema]. destruct (skipn i r) as [|v rest] eqn:E;
      [discriminate Hlen|].
    destruct (skipn_cons_nth _ _ _ _ VNull E) as [Hn Hs].
    cbn [store_row snd].
    rewrite (apply_affinity_uniform
               (map (fun r => nth i r VNull) rows) v).
    + specialize (IH (S i)). rewrite Hs in IH. rewrite IH; [reflexivity| |].
      * intros j Hj. apply Hu. cbn [List.length]. lia.
      * cbn [List.length] in Hlen. lia.
    + apply Hu. cbn [List.length]. lia.
    + rewrite <- Hn. exact (in_map (fun r => nth i r VNull) _ _ Hin).
Qed.

Lemma store_rows_total cols rs k :
  (forall r, In r rs ->
             exists r', store_row cols r = Some r' /\ List.length r' = k) ->
  exists rs',
    store_rows cols rs = Some rs'
    /\ Forall (fun r => List.length r = k) rs'.
Proof.
  induction rs as [|r rs IH]; intros H.
  - exists []. split; [reflexivity | constructor].
  - destruct (H r (or_introl eq_refl)) as [r' [Hr' Hl]].
    destruct IH as [rs' [Hrs' Hall]].
    { intros x Hx. apply H. right. exact Hx. }
    exists (r' :: rs'). cbn [store_rows]. rewrite Hr', Hrs'.
    split; [reflexivity | constructor; assumption].
Qed.

Lemma store_rows_same cols rs :
  (forall r, In r rs -> store_row cols r = Some r) ->
  store_rows cols rs = Some rs.
Proof.
  induction rs as [|r rs IH]; intros H; [reflexivity|].
  cbn [store_rows]. rewrite (H r (or_introl eq_refl)), IH; [reflexivity|].
  intros x Hx. apply H. right. exact Hx.
Qed.

Lemma typed_rows_column ncols rows j :
  typed_rows ncols rows = true -> j < ncols ->
  uniform_column (map (fun r => nth j r VNull) rows) = true.
Proof.
  unfold typed_rows. intros H Hj. rewrite forallb_forall in H.
  apply H, in_seq. lia.
Qed.

Lemma stored_frame_total df :
  wf_frame df = true ->
  store_rows (frame_schema 0 (df_columns df) (df_rows df)) (df_rows df)
  = Some (stored_frame df)
  /\ Forall (fun r => List.length r = List.length (df_columns df))
            (stored_frame df).
Proof.
  intros Hwf. destruct (wf_frame_parts _ Hwf) as [_ [_ Hall]].
  destruct (store_rows_total
              (frame_schema 0 (df_columns df) (df_rows df)) (df_rows df)
              (List.length (df_columns df))) as [rs [Hrs Hlen]].
  { intros r Hr.
    destruct (store_row_own 0 (df_columns df) (df_rows df) r Hr)
      as [r' [Hr' Hl]].
    cbn [skipn] in Hr', Hl. exists r'. split; [exact Hr'|].
    rewrite Forall_forall in Hall. rewrite Hl, (Hall r Hr).
    apply Nat.min_id. }
  unfold stored_frame. rewrite Hrs. split; [reflexivity | exact Hlen].
Qed.

Lemma stored_frame_typed df :
  wf_frame df = true -> typed_frame df = true ->
  stored_frame df = df_rows df.
Proof.
  intros Hwf Hty. destruct (wf_frame_parts _ Hwf) as [_ [_ Hall]].
  unfold stored_frame. rewrite store_rows_same; [reflexivity|].
  intros r Hr.
  apply (store_row_typed 0 (df_columns df) (df_rows df) r Hr).
  - intros j Hj. apply (typed_rows_column _ _ _ Hty). exact Hj.
  - rewrite Forall_forall in Hall. exact (Hall r Hr).
Qed.

Lemma insert_frame_last t df base :
  find_entry t base = None ->
  wf_frame df = true ->
  insert_frame t df
    (base ++ [ETable t (frame_schema 0 (df_columns df) (df_rows df)) []])
  = inr (base ++ [ETable t (frame_schema 0 (df_columns df) (df_rows df))
                         (stored_frame df)]).
Proof.
  intros Hfree Hwf. destruct (wf_frame_parts _ Hwf) as [_ [Hd Hall]].
  pose proof (find_table_none_of_entry _ _ Hfree) as Hnone.
  unfold insert_frame. rewrite (find_table_last _ _ _ _ Hnone).
  rewrite frame_schema_names.
  assert (Hsub : forallb (fun l => existsb (name_eqb l) (df_columns df))
                         (df_columns df) = true).
  { apply forallb_forall. intros l Hl. apply existsb_exists.
    exists l. split; [exact Hl | apply name_eqb_refl]. }
  rewrite Hsub, (align_frame_rows _ _ _ Hd Hall).
  destruct (stored_frame_total _ Hwf) as [-> _].
  rewrite map_app, (append_rows_other _ _ _ Hnone).
  cbn [map append_rows]. rewrite name_eqb_refl. cbn [app]. reflexivity.
Qed.

Lemma create_frame_table_free t df base :
  reserved_name t = false ->
  find_entry t base = None ->
  wf_frame df = true ->
  create_frame_table t df base
  = inr (base ++ [ETable t (frame_schema 0 (df_columns df) (df_rows df)) []]).
Proof.
  intros Hres Hfree Hwf. destruct (wf_frame_parts _ Hwf) as [Hne [Hd _]].
  unfold create_frame_table, add_table. rewrite Hfree, Hres.
  rewrite frame_schema_names, Hd.
  destruct (df_columns df) as [|l ls]; [congruence|]. reflexivity.
Qed.

Lemma to_sql_replace_spec c t df :
  valid_sqlite_name t = true ->
  reserved_name t = false ->
  wf_database (working c) = true ->
  wf_frame df = true ->
  has_table t (working c) = true \/ find_entry t (working c) = None ->
  to_sql t df Replace c = (None, connect (replaced t df (working c))).
Proof.
  intros Hval Hres Hwf Hdf Hown. unfold to_sql, replaced, replaced_base.
  rewrite Hval. cbn [negb].
  assert (Hd : distinct_names (map entry_name (working c)) = true).
  { unfold wf_database in Hwf. apply andb_true_iff in Hwf. apply Hwf. }
  destruct (has_table t (working c)) eqn:Hh.
  - unfold run_drop. destruct (find_table_some _ _ Hh) as [e ->].
    rewrite Hres. cbn [store working].
    rewrite (create_frame_table_free _ _ _ Hres
               (drop_entries_free _ _ Hd Hh) Hdf).
    cbn [store working].
    rewrite (insert_frame_last _ _ _ (drop_entries_free _ _ Hd Hh) Hdf).
    reflexivity.
  - destruct Hown as [Hc|Hfree]; [discriminate|].
    rewrite (create_frame_table_free _ _ _ Hres Hfree Hdf).
    cbn [store working].
    rewrite (insert_frame_last _ _ _ Hfree Hdf).
    reflexivity.
Qed.

Lemma replaced_base_free t db :
  wf_database db = true ->
  has_table t db = true \/ find_entry t db = None ->
  find_entry t (replaced_base t db) = None.
Proof.
  intros Hwf Hown. unfold replaced_base.
  unfold wf_database in Hwf. apply andb_true_iff in Hwf as [Hd _].
  destruct (has_table t db) eqn:Hh.
  - apply drop_entries_free; assumption.
  - destruct Hown as [Hc|Hfree]; [discriminate | exact Hfree].
Qed.

Lemma find_table_replaced t df db :
  wf_database db = true ->
  has_table t db = true \/ find_entry t db = None ->
  find_table t (replaced t df db)
  = Some (ETable t (frame_schema 0 (df_columns df) (df_rows df))
                 (stored_frame df)).
Proof.
  intros Hwf Hown. unfold replaced.
  apply find_table_last, find_table_none_of_entry, replaced_base_free;
    assumption.
Qed.

Lemma create_table_from_dataframe_spec h t df :
  valid_sqlite_name t = true ->
  reserved_name t = false ->
  wf_database (working (connector h)) = true ->
  wf_frame df = true ->
  has_table t (working (connector h)) = true
  \/ find_entry t (working (connector h)) = None ->
  create_table_from_dataframe t df h
  = (Ok tt,
     {| DB_file_path := DB_file_path h;
        connector := connect (replaced t df (working (connector h)));
        cursor := cursor h |}).
Proof.
  intros Hval Hres Hwf Hdf Hown.
  unfold create_table_from_dataframe, bind, df_to_sql.
  rewrite (to_sql_replace_spec _ _ _ Hval Hres Hwf Hdf Hown). reflexivity.
Qed.

Lemma distinct_names_snoc ns t :
  distinct_names ns = true ->
  (forall x, In x ns -> name_eqb x t = false) ->
  distinct_names (ns ++ [t]) = true.
Proof.
  induction ns as [|n ns IH]; intros Hd Hfree; [reflexivity|].
  cbn [app distinct_names]. apply andb_true_iff. split.
  - apply negb_true_iff.
    destruct (existsb (name_eqb n) (ns ++ [t])) eqn:E; [|reflexivity].
    apply existsb_exists in E as [x [Hx Hn]].
    apply in_app_or in Hx as [Hx|[<-|[]]].
    + rewrite (distinct_names_head _ _ _ Hd Hx) in Hn. discriminate Hn.
    + rewrite (Hfree n (or_introl eq_refl)) in Hn. discriminate Hn.
  - apply IH; [exact (distinct_names_tail _ _ Hd)|].
    intros x Hx. apply Hfree. right. exact Hx.
Qed.




(** ** Round trip through a table *)

(** C4, as stated, fails: a table created under a name that is not a bare
    identifier cannot be fetched; a frame without columns cannot be stored;
    and a column holding an integer next to text is declared TEXT, so that
    [{a: [1, 'x']}] comes back as [{a: ['1', 'x']}]. *)
Lemma round_trip_fails :
  (exists h1 msg,
      create_table_from_dataframe "test-test" fixture_df fresh_handler
      = (Ok tt, h1)
      /\ fst (fetchall_to_dataframe "test-test" h1)
         = Raise (DatabaseError msg))
  /\ (exists msg,
         fst (create_table_from_dataframe
                "t" {| df_columns := []; df_rows := [] |} fresh_handler)
         = Raise (DatabaseError msg))
  /\ (fst ((create_table_from_dataframe "t"
              {| df_columns := ["a"];
                 df_rows := [[VInt 1]; [VText "x"]] |} ;;;
            fetchall_to_dataframe "t") fresh_handler)
      = Ok {| df_columns := ["a"];
              df_rows := [[VText "1"]; [VText "x"]] |}).
Proof.
  split; [|split].
  - eexists _, _. split; vm_compute; reflexivity.
  - eexists. vm_compute. reflexivity.
  - vm_compute. reflexivity.
Qed.

(** C4, amended: for a table name that is a bare identifier, not reserved
    and not held by another schema object, and a rectangular frame with at
    least one column, labels that differ and are names the bridge accepts
    (not empty, no NUL), each column holding only integers of 64 bits or
    only text and NULLs, [create_table_from_dataframe] followed by
    [fetchall_to_dataframe] returns the frame: the same labels and the same
    rows in the same order. *)
Theorem frame_round_trip (h : DBHandler) (t : string) (df : DataFrame) :
  is_ident t = true ->
  reserved_name t = false ->
  wf_database (working (connector h)) = true ->
  wf_frame df = true ->
  forallb valid_sqlite_name (df_columns df) = true ->
  typed_frame df = true ->
  has_table t (working (connector h)) = true
  \/ find_entry t (working (connector h)) = None ->
  exists h1,
    create_table_from_dataframe t df h = (Ok tt, h1)
    /\ fetchall_to_dataframe t h1 = (Ok df, h1).
Proof.
  intros Hid Hres Hwf Hdf _ Hty Hown.
  pose proof (find_table_replaced t df _ Hwf Hown) as Hf.
  rewrite (stored_frame_typed _ Hdf Hty) in Hf.
  pose (h1 := {| DB_file_path := DB_file_path h;
                 connector := connect (replaced t df (working (connector h)));
                 cursor := cursor h |}).
  assert (Hl : listed t h1) by exact (find_table_listed _ _ _ _ Hf).
  exists h1. split.
  - apply create_table_from_dataframe_spec;
      [apply is_ident_valid_name| | | |]; assumption.
  - rewrite (fetchall_to_dataframe_spec h1 t t _ _ Hid
               (reserved_not_master _ Hres) Hl Hf).
    rewrite frame_schema_names. destruct df; reflexivity.
Qed.

Lemma frame_round_trip_witness :
  exists h1,
    create_table_from_dataframe "test" fixture_df fresh_handler = (Ok tt, h1)
    /\ fetchall_to_dataframe "test" h1 = (Ok fixture_df, h1).
Proof.
  apply (frame_round_trip fresh_handler "test" fixture_df).
  - reflexivity.
  - reflexivity.
  - reflexivity.
  - reflexivity.
  - reflexivity.
  - reflexivity.
  - right. reflexivity.
Defined.

(** ** Deduplication *)






Example delete_duplicated_fixture :
  fst ((delete_duplicated "test" ;;; fetchall "test") fixture_handler)
  = Ok [[VInt 1; VText "te1"]; [VInt 2; VText "te2"]].
Proof. vm_compute. reflexivity. Qed.






(** ** Creating a table *)

Lemma type_dict_word value ty :
  type_dict value = Some ty ->
  ty <> EmptyString /\ all_chars is_word_char ty = true
  /\ (is_ident ty || kw "null" ty) = true.
Proof.
  destruct value as [[| | |n]|]; cbn [type_dict]; intros H;
    try discriminate H; injection H as <-;
    (split; [discriminate|]); split; reflexivity.
Qed.

Lemma valid_column_parts key value :
  valid_column (key, value) = true ->
  is_ident key = true /\ exists ty, type_dict value = Some ty.
Proof.
  unfold valid_column. cbn [fst snd]. intros H.
  apply andb_true_iff in H as [H1 H2]. split; [exact H1|].
  destruct (type_dict value) as [ty|]; [eauto | discriminate].
Qed.

Lemma column_clauses_cons key value ty rest clauses :
  type_dict value = Some ty ->
  column_clauses rest = Ok clauses ->
  column_clauses ((key, value) :: rest)
  = Ok ((key ++ " " ++ ty)%string :: clauses).
Proof. intros H1 H2. cbn [column_clauses]. rewrite H1, H2. reflexivity. Qed.

Lemma lex_clause key ty s :
  is_ident key = true ->
  ty <> EmptyString -> all_chars is_word_char ty = true ->
  starts_delim s = true ->
  lex ((key ++ " " ++ ty) ++ s) = TWord key :: TWord ty :: lex s.
Proof.
  intros Hk Hne Hw Hs.
  rewrite !append_assoc.
  rewrite (lex_ident _ _ Hk) by reflexivity.
  rewrite lex_clean by reflexivity. cbn [fst lex_run app].
  rewrite (lex_word _ _ Hne Hw Hs). reflexivity.
Qed.

(** The column list of [create_table] and its tokens. *)
Lemma lex_column_clauses items :
  items <> [] ->
  forallb valid_column items = true ->
  exists clauses,
    column_clauses items = Ok clauses
    /\ lex (join ", " clauses ++ ")") = col_tokens items.
Proof.
  induction items as [|[key value] rest IH]; [congruence|].
  intros _ Hv. cbn [forallb] in Hv. apply andb_true_iff in Hv as [Hv Hrest].
  destruct (valid_column_parts _ _ Hv) as [Hk [ty Hty]].
  destruct (type_dict_word _ _ Hty) as [Hne [Hw _]].
  destruct rest as [|item rest'].
  - exists [(key ++ " " ++ ty)%string]. split.
    + apply column_clauses_cons; [exact Hty | reflexivity].
    + cbn [join col_tokens]. rewrite Hty.
      rewrite (lex_clause _ _ _ Hk Hne Hw) by reflexivity. reflexivity.
  - destruct (IH ltac:(discriminate) Hrest) as [clauses [Hc Hl]].
    exists ((key ++ " " ++ ty)%string :: clauses). split.
    + apply column_clauses_cons; assumption.
    + assert (Hcl : clauses <> []).
      { destruct item as [k2 v2]. cbn [column_clauses] in Hc.
        destruct (type_dict v2); [|discriminate].
        destruct (column_clauses rest'); [|discriminate].
        injection Hc as <-. discriminate. }
      destruct clauses as [|c clauses]; [congruence|].
      change (join ", " ((key ++ " " ++ ty)%string :: c :: clauses))
        with ((key ++ " " ++ ty) ++ ", " ++ join ", " (c :: clauses))%string.
      rewrite append_assoc.
      rewrite (lex_clause _ _ _ Hk Hne Hw) by reflexivity.
      rewrite append_assoc.
      rewrite lex_clean by reflexivity. rewrite Hl.
      cbn [col_tokens]. rewrite Hty. reflexivity.
Qed.

Lemma parse_col_tokens items :
  items <> [] ->
  forallb valid_column items = true ->
  parse_coldefs (col_tokens items) = Some (declared_columns items).
Proof.
  induction items as [|[key value] rest IH]; [congruence|].
  intros _ Hv. cbn [forallb] in Hv. apply andb_true_iff in Hv as [Hv Hrest].
  destruct (valid_column_parts _ _ Hv) as [Hk [ty Hty]].
  destruct (type_dict_word _ _ Hty) as [_ [_ Hword]].
  cbn [col_tokens declared_columns map fst snd]. unfold declared.
  rewrite Hty. cbn [parse_coldefs]. rewrite Hk, Hword. cbn [andb].
  destruct rest as [|item rest']; [reflexivity|].
  cbv iota beta.
  rewrite (IH ltac:(discriminate) Hrest). reflexivity.
Qed.

Lemma valid_columns_parts items :
  valid_columns items = true ->
  items <> [] /\ forallb valid_column items = true
  /\ distinct_names (map fst items) = true.
Proof.
  unfold valid_columns. intros H.
  apply andb_true_iff in H as [H H3]. apply andb_true_iff in H as [H1 H2].
  repeat split; try assumption.
  intros ->. discriminate H1.
Qed.

Lemma parse_create_table t items :
  is_ident t = true ->
  valid_columns items = true ->
  exists clauses,
    column_clauses items = Ok clauses
    /\ parse (lex (create_table_query t (join ", " clauses)))
       = Some (SCreateTable t (declared_columns items)).
Proof.
  intros Hid Hv. destruct (valid_columns_parts _ Hv) as [Hne [Hall _]].
  destruct (lex_column_clauses _ Hne Hall) as [clauses [Hc Hl]].
  exists clauses. split; [exact Hc|].
  change (create_table_query t (join ", " clauses))
    with ("CREATE TABLE IF NOT EXISTS " ++ t ++ " ("
            ++ (join ", " clauses ++ ")"))%string.
  rewrite (lex_clean_tokens "CREATE TABLE IF NOT EXISTS "
             [TWord "CREATE"; TWord "TABLE"; TWord "IF"; TWord "NOT";
              TWord "EXISTS"]) by reflexivity.
  rewrite (lex_ident _ _ Hid) by reflexivity.
  rewrite (lex_clean_tokens " (" [TLParen]) by reflexivity.
  rewrite Hl. cbn [app].
  change (parse (TWord "CREATE" :: TWord "TABLE" :: TWord "IF" :: TWord "NOT"
                   :: TWord "EXISTS" :: TWord t :: TLParen
                   :: col_tokens items))
    with (if is_ident t
          then option_map (SCreateTable t) (parse_coldefs (col_tokens items))
          else None).
  rewrite Hid, (parse_col_tokens _ Hne Hall). reflexivity.
Qed.

Lemma declared_columns_names items :
  map fst (declared_columns items) = map fst items.
Proof. unfold declared_columns. rewrite map_map. reflexivity. Qed.

(** What [create_table] does to the catalog for acceptable arguments:
    nothing when a table answers to the name, a new empty table at the end
    when the name is free. *)
Lemma create_table_spec h t items :
  is_ident t = true ->
  reserved_name t = false ->
  valid_columns items = true ->
  (exists c r, find_entry t (working (connector h)) = Some (ETable t c r))
  \/ find_entry t (working (connector h)) = None ->
  create_table t items h
  = (Ok tt,
     {| DB_file_path := DB_file_path h;
        connector :=
          connect (match find_entry t (working (connector h)) with
                   | Some _ => working (connector h)
                   | None => working (connector h)
                               ++ [ETable t (declared_columns items) []]
                   end);
        cursor := [] |}).
Proof.
  intros Hid Hres Hv Hown.
  destruct (parse_create_table _ _ Hid Hv) as [clauses [Hc Hp]].
  destruct (valid_columns_parts _ Hv) as [Hne [_ Hd]].
  unfold create_table. rewrite Hc.
  unfold bind, cursor_execute, conn_execute, prepare. rewrite Hp.
  cbn [begin_for is_dml is_query]. unfold step.
  cbn [List.length Nat.eqb negb]. unfold run_create. rewrite Hres.
  destruct Hown as [[c [r Hf]]|Hf]; rewrite Hf.
  - reflexivity.
  - unfold add_table. rewrite Hres, declared_columns_names, Hd.
    destruct items as [|item items]; [congruence|]. reflexivity.
Qed.

Lemma find_entry_unique t db e :
  distinct_names (map entry_name db) = true ->
  In e db -> name_eqb (entry_name e) t = true ->
  find_entry t db = Some e.
Proof.
  unfold find_entry. induction db as [|x db IH]; intros Hd Hin Hn.
  - destruct Hin.
  - cbn [find]. destruct Hin as [->|Hin]; [rewrite Hn; reflexivity|].
    cbn [map] in Hd.
    pose proof (distinct_names_head _ _ _ Hd (in_map entry_name _ _ Hin))
      as Hx.
    rewrite name_eqb_sym, (name_eqb_congr _ _ _ Hn) in Hx.
    rewrite name_eqb_sym, Hx.
    apply IH; [exact (distinct_names_tail _ _ Hd) | exact Hin | exact Hn].
Qed.

Lemma py_count_app v l1 l2 :
  py_count v (l1 ++ l2) = py_count v l1 + py_count v l2.
Proof. unfold py_count. rewrite filter_app, length_app. reflexivity. Qed.

Lemma table_names_app db1 db2 :
  table_names (db1 ++ db2) = table_names db1 ++ table_names db2.
Proof. unfold table_names. rewrite filter_app, map_app. reflexivity. Qed.

Lemma value_eqb_text a b : value_eqb (VText a) (VText b) = String.eqb a b.
Proof. reflexivity. Qed.

Lemma string_eqb_name a b : String.eqb a b = true -> name_eqb a b = true.
Proof. intros H. apply String.eqb_eq in H. subst. apply name_eqb_refl. Qed.

Lemma py_count_free t db :
  (forall e, In e db -> name_eqb (entry_name e) t = false) ->
  py_count (VText t) (table_names db) = 0.
Proof.
  unfold py_count, table_names. induction db as [|x db IH]; intros H.
  - reflexivity.
  - cbn [filter map].
    assert (IH' := IH (fun e He => H e (or_intror He))).
    destruct (is_table x); [|exact IH'].
    cbn [map filter]. rewrite value_eqb_text.
    destruct (String.eqb t (entry_name x)) eqn:E; [|exact IH'].
    apply string_eqb_name in E. rewrite name_eqb_sym in E.
    rewrite (H x (or_introl eq_refl)) in E. discriminate E.
Qed.

Lemma py_count_table t db cols rows :
  distinct_names (map entry_name db) = true ->
  In (ETable t cols rows) db ->
  py_count (VText t) (table_names db) = 1.
Proof.
  induction db as [|x db IH]; intros Hd Hin; [destruct Hin|].
  change (x :: db) with ([x] ++ db).
  rewrite table_names_app, py_count_app.
  cbn [map] in Hd. destruct Hin as [->|Hin].
  - rewrite (py_count_free t db).
    + unfold py_count, table_names. cbn [filter is_table map entry_name].
      rewrite value_eqb_text, String.eqb_refl. reflexivity.
    + intros e He.
      pose proof (distinct_names_head _ _ _ Hd (in_map entry_name _ _ He))
        as Hx.
      cbn [entry_name] in Hx. rewrite name_eqb_sym. exact Hx.
  - rewrite (IH (distinct_names_tail _ _ Hd) Hin).
    rewrite (py_count_free t [x]); [reflexivity|].
    intros e [<-|[]].
    exact (distinct_names_head _ _ _ Hd
             (in_map entry_name _ _ Hin)).
Qed.

(** C5, as stated, fails: under a name that differs from an existing
    table's only by letter case nothing is created and the name is not
    listed; a name that is not a bare identifier, an empty column
    dictionary, or a type outside [type_dict] make [create_table] raise. *)
Lemma create_table_not_listed_once :
  (exists h1,
      create_table "Test" [("id", Some PyInt)] fixture_handler = (Ok tt, h1)
      /\ fst (tables h1) = Ok [VText "test"]
      /\ py_count (VText "Test") [VText "test"] = 0)
  /\ (exists msg,
         fst (create_table "test-test" [("id", Some PyInt)] fresh_handler)
         = Raise (OperationalError msg))
  /\ (exists msg,
         fst (create_table "t" [] fresh_handler)
         = Raise (OperationalError msg))
  /\ (exists key,
         fst (create_table "t" [("flag", Some (PyOther "bool"))]
                           fresh_handler)
         = Raise (KeyError key)).
Proof.
  split; [|split; [|split]].
  - eexists. split; [vm_compute; reflexivity|]. split; reflexivity.
  - eexists. vm_compute. reflexivity.
  - eexists. vm_compute. reflexivity.
  - eexists. vm_compute. reflexivity.
Qed.

(** C5, amended: for a name that is a bare identifier, not reserved, and
    either free or the exact name of an existing table, and a column
    dictionary that is not empty, with bare identifiers that differ as keys
    and types from [type_dict], [create_table] returns and [tables] then
    holds the name exactly once; the same call again returns too and
    changes nothing. *)
Theorem create_table_listed_once
        (h : DBHandler) (t : string) (items : list (string * option pytype)) :
  is_ident t = true ->
  reserved_name t = false ->
  valid_columns items = true ->
  wf_database (working (connector h)) = true ->
  has_table t (working (connector h)) = true
  \/ find_entry t (working (connector h)) = None ->
  exists h1 ts,
    create_table t items h = (Ok tt, h1)
    /\ tables h1 = (Ok ts, h1)
    /\ py_count (VText t) ts = 1
    /\ create_table t items h1 = (Ok tt, h1).
Proof.
  intros Hid Hres Hv Hwf Hown.
  assert (Hd : distinct_names (map entry_name (working (connector h))) = true).
  { unfold wf_database in Hwf. apply andb_true_iff in Hwf. apply Hwf. }
  destruct Hown as [Hh|Hfree].
  - apply has_table_In in Hh as [c [r Hin]].
    pose proof (find_entry_unique t _ _ Hd Hin (name_eqb_refl t)) as Hf.
    pose (h1 := {| DB_file_path := DB_file_path h;
                   connector := connect (working (connector h));
                   cursor := [] |}).
    exists h1, (table_names (working (connector h1))).
    split; [|split; [apply tables_spec | split]].
    + rewrite (create_table_spec h t items Hid Hres Hv) by eauto.
      rewrite Hf. reflexivity.
    + exact (py_count_table t _ c r Hd Hin).
    + rewrite (create_table_spec h1 t items Hid Hres Hv)
        by (left; exists c, r; exact Hf).
      cbn [h1 connector working connect]. rewrite Hf. reflexivity.
  - pose (db1 := working (connector h)
                   ++ [ETable t (declared_columns items) []]).
    pose (h1 := {| DB_file_path := DB_file_path h; connector := connect db1;
                   cursor := [] |}).
    assert (Hf1 : find_entry t db1
                  = Some (ETable t (declared_columns items) [])).
    { unfold db1. rewrite (find_entry_last_none _ _ _ Hfree).
      unfold find_entry. cbn [find entry_name].
      rewrite name_eqb_refl. reflexivity. }
    exists h1, (table_names (working (connector h1))).
    split; [|split; [apply tables_spec | split]].
    + rewrite (create_table_spec h t items Hid Hres Hv) by auto.
      rewrite Hfree. reflexivity.
    + cbn [h1 connector working connect]. unfold db1.
      rewrite table_names_app, py_count_app.
      rewrite (py_count_free t _ (proj1 (find_entry_none _ _) Hfree)).
      unfold py_count, table_names. cbn [filter is_table map entry_name].
      rewrite value_eqb_text, String.eqb_refl. reflexivity.
    + rewrite (create_table_spec h1 t items Hid Hres Hv)
        by (left; eexists _, _; exact Hf1).
      cbn [h1 connector working connect]. rewrite Hf1. reflexivity.
Qed.

Lemma create_table_listed_once_witness :
  exists h1 ts,
    create_table "test" [("id", Some PyInt); ("name", Some PyStr)]
                 fresh_handler = (Ok tt, h1)
    /\ tables h1 = (Ok ts, h1)
    /\ py_count (VText "test") ts = 1
    /\ create_table "test" [("id", Some PyInt); ("name", Some PyStr)] h1
       = (Ok tt, h1).
Proof.
  apply (create_table_listed_once fresh_handler "test"
           [("id", Some PyInt); ("name", Some PyStr)]).
  - reflexivity.
  - reflexivity.
  - reflexivity.
  - reflexivity.
  - right. reflexivity.
Defined.

(** ** The catalog invariant along the handler's writes *)

Lemma entry_name_append_rows t rs db :
  map entry_name (map (append_rows t rs) db) = map entry_name db.
Proof.
  rewrite map_map. apply map_ext. intros [m cols rows|n tb]; [|reflexivity].
  cbn [append_rows]. destruct (name_eqb m t); reflexivity.
Qed.

Lemma forallb_arity_app (cols : list column) (rows rs : list row) :
  forallb (fun r => Nat.eqb (List.length r) (List.length cols)) rows = true ->
  Forall (fun r : row => List.length r = List.length cols) rs ->
  forallb (fun r => Nat.eqb (List.length r) (List.length cols)) (rows ++ rs)
  = true.
Proof.
  intros H1 H2. rewrite forallb_app.
  apply andb_true_iff. split; [exact H1|].
  apply forallb_forall. intros r Hr. rewrite Forall_forall in H2.
  apply Nat.eqb_eq. exact (H2 r Hr).
Qed.

(** [insert_records] keeps the catalog well formed when the rows have the
    table's arity. *)
Lemma wf_append_rows t cols rows values db :
  wf_database db = true ->
  find_table t db = Some (ETable t cols rows) ->
  Forall (fun r => List.length r = List.length cols) values ->
  wf_database (map (append_rows t values) db) = true.
Proof.
  intros Hwf Hf Hall.
  destruct (find_table_In _ _ _ Hf) as [Hin _].
  unfold wf_database in *. apply andb_true_iff in Hwf as [Hd Hentries].
  rewrite entry_name_append_rows, Hd. cbn [andb].
  apply forallb_forall. intros e He.
  apply in_map_iff in He as [e0 [<- He0]].
  rewrite forallb_forall in Hentries. pose proof (Hentries e0 He0) as Hwf0.
  destruct e0 as [m cols0 rows0|n tb]; [|exact Hwf0].
  cbn [append_rows]. destruct (name_eqb m t) eqn:E; [|exact Hwf0].
  pose proof (find_entry_unique t db _ Hd He0 E) as H1.
  pose proof (find_entry_unique t db _ Hd Hin (name_eqb_refl t)) as H2.
  rewrite H1 in H2. injection H2 as -> -> ->.
  cbn [wf_entry] in *.
  apply andb_true_iff in Hwf0 as [Hrest Hrows]. rewrite Hrest. cbn [andb].
  apply forallb_arity_app; assumption.
Qed.

(** [create_table] keeps the catalog well formed. *)
Lemma wf_create t items db :
  reserved_name t = false ->
  valid_columns items = true ->
  wf_database db = true ->
  find_entry t db = None ->
  wf_database (db ++ [ETable t (declared_columns items) []]) = true.
Proof.
  intros Hres Hv Hwf Hfree.
  destruct (valid_columns_parts _ Hv) as [Hne [_ Hd]].
  unfold wf_database in *. apply andb_true_iff in Hwf as [Hnames Hentries].
  apply andb_true_iff. split.
  - rewrite map_app. cbn [map entry_name].
    apply distinct_names_snoc; [exact Hnames|].
    intros x Hx. apply in_map_iff in Hx as [e [<- He]].
    rewrite find_entry_none in Hfree. apply Hfree, He.
  - rewrite forallb_app, Hentries. cbn [forallb wf_entry andb].
    rewrite (reserved_not_master _ Hres), declared_columns_names, Hd.
    unfold declared_columns. rewrite length_map.
    destruct items; [congruence | reflexivity].
Qed.

(** The fixture of the tests is a well-formed catalog. *)
Example wf_fixture :
  wf_database (working (connector fixture_handler)) = true.
Proof. reflexivity. Qed.

(** ** The repository's tests, replayed on the model *)

Example test_exec_query :
  fst (exec_query "SELECT * FROM test" fixture_handler)
  = Ok [[VInt 1; VText "te1"]; [VInt 2; VText "te2"]; [VInt 2; VText "te2"]]
  /\ fst (exec_query "SELECT id FROM test" fixture_handler)
     = Ok [[VInt 1]; [VInt 2]; [VInt 2]].
Proof. split; vm_compute; reflexivity. Qed.

Example test_create_and_delete_table :
  fst ((create_table "test" [("id", Some PyInt); ("name", Some PyStr)] ;;;
        tables) fresh_handler) = Ok [VText "test"]
  /\ fst ((create_table "test" [("id", Some PyInt); ("name", Some PyStr)] ;;;
           delete_table "test" ;;; tables) fresh_handler) = Ok [].
Proof. split; vm_compute; reflexivity. Qed.

Example test_rename_table :
  fst ((rename_table "test" "test_test" ;;; tables) fixture_handler)
  = Ok [VText "test_test"]
  /\ fst (rename_table "test" "test-test"
            (snd (create_table_from_dataframe "test123" fixture_df
                    fresh_handler)))
     = Raise (TableNotFoundError "test").
Proof. split; vm_compute; reflexivity. Qed.

Example test_fetchall :
  fst (fetchall "test" fixture_handler) = Ok (df_rows fixture_df)
  /\ fst (fetchall_to_dataframe "test" fixture_handler) = Ok fixture_df.
Proof. split; vm_compute; reflexivity. Qed.

Example test_insert_records_from_dataframe :
  fst ((insert_records_from_dataframe
          "test" {| df_columns := ["id"; "name"];
                    df_rows := [[VInt 3; VText "te3"];
                                [VInt 4; VText "te4"]] |} ;;;
        fetchall_to_dataframe "test") fixture_handler)
  = Ok {| df_columns := ["id"; "name"];
          df_rows := [[VInt 1; VText "te1"]; [VInt 2; VText "te2"];
                      [VInt 2; VText "te2"]; [VInt 3; VText "te3"];
                      [VInt 4; VText "te4"]] |}
  /\ fst (insert_records_from_dataframe
            "test" {| df_columns := []; df_rows := [] |} fixture_handler)
     = Raise (ValueError "add data is empty.").
Proof. split; vm_compute; reflexivity. Qed.

(** A row list that fails part way leaves the rows bound before the failure
    in the connection's open transaction. *)
Example insert_records_partial :
  fst (fetchall "test"
         (snd (insert_records "test" [[VInt 3; VText "te3"]; [VInt 4]]
                              fixture_handler)))
  = Ok [[VInt 1; VText "te1"]; [VInt 2; VText "te2"]; [VInt 2; VText "te2"];
        [VInt 3; VText "te3"]].
Proof. vm_compute. reflexivity. Qed.

(** * Further properties of the handler *)

(** ** Dropping and renaming *)

Lemma lex_ident_end w : is_ident w = true -> lex w = [TWord w].
Proof.
  intros H. rewrite <- (append_empty_r w) at 1.
  rewrite (lex_ident _ _ H) by reflexivity. reflexivity.
Qed.

Lemma parse_drop_query t :
  is_ident t = true -> parse (lex (drop_query t)) = Some (SDropTable t).
Proof.
  intros H. unfold drop_query.
  rewrite (lex_clean_tokens "DROP TABLE IF EXISTS "
             [TWord "DROP"; TWord "TABLE"; TWord "IF"; TWord "EXISTS"])
    by reflexivity.
  rewrite (lex_ident_end _ H). cbn [app].
  change (parse [TWord "DROP"; TWord "TABLE"; TWord "IF"; TWord "EXISTS";
                 TWord t])
    with (if is_ident t then Some (SDropTable t) else None).
  rewrite H. reflexivity.
Qed.

Lemma parse_rename_query a b :
  is_ident a = true -> is_ident b = true ->
  parse (lex (rename_query a b)) = Some (SAlterRename a b).
Proof.
  intros Ha Hb. unfold rename_query.
  rewrite (lex_clean_tokens "ALTER TABLE " [TWord "ALTER"; TWord "TABLE"])
    by reflexivity.
  rewrite (lex_ident _ _ Ha) by reflexivity.
  rewrite (lex_clean_tokens " RENAME TO " [TWord "RENAME"; TWord "TO"])
    by reflexivity.
  rewrite (lex_ident_end _ Hb). cbn [app].
  change (parse [TWord "ALTER"; TWord "TABLE"; TWord a; TWord "RENAME";
                 TWord "TO"; TWord b])
    with (if is_ident a && is_ident b then Some (SAlterRename a b) else None).
  rewrite Ha, Hb. reflexivity.
Qed.

Lemma delete_table_spec h t e :
  is_ident t = true ->
  reserved_name t = false ->
  listed t h ->
  find_table t (working (connector h)) = Some e ->
  delete_table t h
  = (Ok tt,
     {| DB_file_path := DB_file_path h;
        connector := connect (drop_entries t (working (connector h)));
        cursor := [] |}).
Proof.
  intros Hid Hres Hl Hf.
  rewrite delete_table_guard, (guard_present _ _ _ Hl).
  unfold bind, cursor_execute, conn_execute, prepare.
  rewrite (parse_drop_query _ Hid).
  cbn [begin_for is_dml is_query]. unfold step.
  cbn [List.length Nat.eqb negb]. unfold run_drop. rewrite Hf, Hres.
  reflexivity.
Qed.

Lemma rename_table_spec h a b e :
  is_ident a = true -> is_ident b = true ->
  reserved_name a = false -> reserved_name b = false ->
  listed a h ->
  find_table a (working (connector h)) = Some e ->
  find_entry b (working (connector h)) = None ->
  rename_table a b h
  = (Ok tt,
     {| DB_file_path := DB_file_path h;
        connector :=
          connect (map (rename_entry a b) (working (connector h)));
        cursor := [] |}).
Proof.
  intros Ha Hb Hra Hrb Hl Hf Hfree.
  rewrite rename_table_guard, (guard_present _ _ _ Hl).
  unfold bind, cursor_execute, conn_execute, prepare.
  rewrite (parse_rename_query _ _ Ha Hb).
  cbn [begin_for is_dml is_query]. unfold step.
  cbn [List.length Nat.eqb negb]. unfold run_rename.
  rewrite Hf, Hra, Hrb, Hfree. reflexivity.
Qed.

(** In a well-formed catalog that holds a table named exactly [t], an entry
    answers to [t] only if its name is [t] itself. *)
Lemma name_eqb_exact t db cols rows e :
  distinct_names (map entry_name db) = true ->
  In (ETable t cols rows) db -> In e db ->
  name_eqb (entry_name e) t = String.eqb (entry_name e) t.
Proof.
  intros Hd Hin He.
  destruct (name_eqb (entry_name e) t) eqn:E.
  - pose proof (find_entry_unique t db _ Hd He E) as H1.
    pose proof (find_entry_unique t db _ Hd Hin (name_eqb_refl t)) as H2.
    rewrite H1 in H2. injection H2 as ->. symmetry. apply String.eqb_refl.
  - destruct (String.eqb (entry_name e) t) eqn:E2; [|reflexivity].
    apply string_eqb_name in E2. congruence.
Qed.

Lemma wf_distinct db :
  wf_database db = true -> distinct_names (map entry_name db) = true.
Proof. unfold wf_database. intros H. apply andb_true_iff in H. apply H. Qed.

Lemma table_names_drop t db cols rows :
  distinct_names (map entry_name db) = true ->
  In (ETable t cols rows) db ->
  table_names (drop_entries t db)
  = filter (fun v => negb (value_eqb v (VText t))) (table_names db).
Proof.
  intros Hd Hin.
  assert (Hex : forall e, In e db ->
                          name_eqb (entry_name e) t
                          = String.eqb (entry_name e) t)
    by (intros e He; exact (name_eqb_exact t db cols rows e Hd Hin He)).
  clear Hd Hin. unfold table_names, drop_entries.
  induction db as [|e db IH]; [reflexivity|].
  pose proof (Hex e (or_introl eq_refl)) as He.
  pose proof (IH (fun x Hx => Hex x (or_intror Hx))) as IH'.
  cbn [filter].
  destruct e as [n c r|n tb]; cbn [entry_tbl_name entry_name is_table] in *.
  - cbn [map filter entry_name]. rewrite value_eqb_text, <- He.
    destruct (name_eqb n t); cbn [negb filter is_table map entry_name].
    + exact IH'.
    + rewrite IH'. reflexivity.
  - destruct (negb (name_eqb tb t)); cbn [filter is_table]; exact IH'.
Qed.

Lemma filter_not_In t (l : list value) :
  ~ In (VText t) (filter (fun v => negb (value_eqb v (VText t))) l).
Proof.
  intros H. apply filter_In in H as [_ H].
  rewrite value_eqb_text, String.eqb_refl in H. discriminate H.
Qed.

(** X1: [delete_table] on an existing table with a bare, unreserved name
    returns; afterwards [tables] is the earlier list without that name,
    the other names in their order, and the methods that target the name
    raise [TableNotFoundError] again. *)
Theorem delete_table_removes
        (h : DBHandler) (t : string) (cols : list column) (rows : list row)
        (ts : list value) :
  is_ident t = true ->
  reserved_name t = false ->
  wf_database (working (connector h)) = true ->
  find_table t (working (connector h)) = Some (ETable t cols rows) ->
  fst (tables h) = Ok ts ->
  exists h1,
    delete_table t h = (Ok tt, h1)
    /\ tables h1
       = (Ok (filter (fun v => negb (value_eqb v (VText t))) ts), h1)
    /\ fetchall t h1 = (Raise (TableNotFoundError t), h1)
    /\ delete_table t h1 = (Raise (TableNotFoundError t), h1)
    /\ (forall values,
           insert_records t values h1 = (Raise (TableNotFoundError t), h1)).
Proof.
  intros Hid Hres Hwf Hf Hts.
  rewrite tables_spec in Hts. cbn [fst] in Hts. injection Hts as <-.
  destruct (find_table_In _ _ _ Hf) as [Hin _].
  pose (h1 := {| DB_file_path := DB_file_path h;
                 connector := connect (drop_entries t (working (connector h)));
                 cursor := [] |}).
  assert (Hnames : table_names (working (connector h1))
                   = filter (fun v => negb (value_eqb v (VText t)))
                            (table_names (working (connector h)))).
  { exact (table_names_drop t _ cols rows (wf_distinct _ Hwf) Hin). }
  assert (Habs : ~ listed t h1).
  { unfold listed. rewrite Hnames. apply filter_not_In. }
  exists h1. split; [|split; [|split; [|split]]].
  - exact (delete_table_spec h t _ Hid Hres (find_table_listed _ _ _ _ Hf) Hf).
  - rewrite tables_spec, Hnames. reflexivity.
  - rewrite fetchall_guard. apply guard_absent, Habs.
  - rewrite delete_table_guard. apply guard_absent, Habs.
  - intros values. rewrite insert_records_guard. apply guard_absent, Habs.
Qed.

Lemma delete_table_removes_witness :
  exists h1,
    delete_table "test" fixture_handler = (Ok tt, h1)
    /\ tables h1
       = (Ok (filter (fun v => negb (value_eqb v (VText "test")))
                     [VText "test"]), h1)
    /\ fetchall "test" h1 = (Raise (TableNotFoundError "test"), h1)
    /\ delete_table "test" h1 = (Raise (TableNotFoundError "test"), h1)
    /\ (forall values,
           insert_records "test" values h1
           = (Raise (TableNotFoundError "test"), h1)).
Proof.
  apply (delete_table_removes fixture_handler "test"
           [("id", Some "INTEGER"); ("name", Some "TEXT")]
           (df_rows fixture_df) [VText "test"]); reflexivity.
Defined.

Lemma table_names_rename a b db cols rows :
  distinct_names (map entry_name db) = true ->
  In (ETable a cols rows) db ->
  table_names (map (rename_entry a b) db)
  = map (fun v => if value_eqb v (VText a) then VText b else v)
        (table_names db).
Proof.
  intros Hd Hin.
  assert (Hex : forall e, In e db ->
                          name_eqb (entry_name e) a
                          = String.eqb (entry_name e) a)
    by (intros e He; exact (name_eqb_exact a db cols rows e Hd Hin He)).
  clear Hd Hin. unfold table_names.
  induction db as [|e db IH]; [reflexivity|].
  pose proof (Hex e (or_introl eq_refl)) as He.
  pose proof (IH (fun x Hx => Hex x (or_intror Hx))) as IH'.
  cbn [map].
  destruct e as [n c r|n tb]; cbn [rename_entry entry_name] in *.
  - destruct (name_eqb n a); cbn [filter is_table map entry_name];
      rewrite value_eqb_text, <- He, IH'; reflexivity.
  - destruct (name_eqb tb a); cbn [filter is_table]; exact IH'.
Qed.

Lemma find_table_rename a b db cols rows :
  find_table a db = Some (ETable a cols rows) ->
  find_entry b db = None ->
  find_table b (map (rename_entry a b) db) = Some (ETable b cols rows).
Proof.
  intros Hf Hfree. rewrite find_entry_none in Hfree. revert Hf.
  unfold find_table. induction db as [|e db IH]; [discriminate|].
  pose proof (Hfree e (or_introl eq_refl)) as He.
  pose proof (IH (fun x Hx => Hfree x (or_intror Hx))) as IH'.
  cbn [find map].
  destruct e as [n c r|n tb]; cbn [rename_entry is_table entry_name andb] in *.
  - destruct (name_eqb n a) eqn:E; cbn [is_table entry_name andb].
    + intros H. injection H as -> -> ->. rewrite name_eqb_refl. reflexivity.
    + rewrite He. exact IH'.
  - destruct (name_eqb tb a); cbn [is_table andb]; exact IH'.
Qed.

(** X2: [rename_table] from an existing table to a free name, both bare
    and unreserved, returns; [tables] then shows the new name in the old
    one's place, the rows are fetched under the new name, and the old name
    raises [TableNotFoundError]. *)
Theorem rename_table_renames
        (h : DBHandler) (a b : string) (cols : list column)
        (rows : list row) (ts : list value) :
  is_ident a = true -> is_ident b = true ->
  reserved_name a = false -> reserved_name b = false ->
  wf_database (working (connector h)) = true ->
  find_table a (working (connector h)) = Some (ETable a cols rows) ->
  find_entry b (working (connector h)) = None ->
  fst (tables h) = Ok ts ->
  exists h1 h2,
    rename_table a b h = (Ok tt, h1)
    /\ tables h1
       = (Ok (map (fun v => if value_eqb v (VText a) then VText b else v) ts),
          h1)
    /\ fetchall b h1 = (Ok rows, h2)
    /\ fetchall a h1 = (Raise (TableNotFoundError a), h1).
Proof.
  intros Ha Hb Hra Hrb Hwf Hf Hfree Hts.
  rewrite tables_spec in Hts. cbn [fst] in Hts. injection Hts as <-.
  destruct (find_table_In _ _ _ Hf) as [Hin _].
  pose (h1 := {| DB_file_path := DB_file_path h;
                 connector :=
                   connect (map (rename_entry a b) (working (connector h)));
                 cursor := [] |}).
  assert (Hnames : table_names (working (connector h1))
                   = map (fun v => if value_eqb v (VText a) then VText b
                                   else v)
                         (table_names (working (connector h)))).
  { exact (table_names_rename a b _ cols rows (wf_distinct _ Hwf) Hin). }
  pose proof (find_table_rename a b _ cols rows Hf Hfree) as Hf1.
  assert (Hab : String.eqb b a = false).
  { destruct (String.eqb b a) eqn:E; [|reflexivity].
    apply String.eqb_eq in E. subst b.
    rewrite find_entry_none in Hfree. specialize (Hfree _ Hin).
    cbn [entry_name] in Hfree. rewrite name_eqb_refl in Hfree.
    discriminate Hfree. }
  assert (Habs : ~ listed a h1).
  { unfold listed. rewrite Hnames. intros H.
    apply in_map_iff in H as [v [Hv _]].
    destruct (value_eqb v (VText a)) eqn:E.
    - injection Hv as Hv. subst b. rewrite String.eqb_refl in Hab.
      discriminate Hab.
    - subst v. rewrite value_eqb_text, String.eqb_refl in E. discriminate E. }
  exists h1, {| DB_file_path := DB_file_path h1; connector := connector h1;
                cursor := [] |}.
  split; [|split; [|split]].
  - exact (rename_table_spec h a b _ Ha Hb Hra Hrb
             (find_table_listed _ _ _ _ Hf) Hf Hfree).
  - rewrite tables_spec, Hnames. reflexivity.
  - exact (fetchall_spec h1 b b cols rows Hb (reserved_not_master _ Hrb)
             (find_table_listed _ _ _ _ Hf1) Hf1).
  - rewrite fetchall_guard. apply guard_absent, Habs.
Qed.

Lemma rename_table_renames_witness :
  exists h1 h2,
    rename_table "test" "test_test" fixture_handler = (Ok tt, h1)
    /\ tables h1
       = (Ok (map (fun v => if value_eqb v (VText "test")
                            then VText "test_test" else v)
                  [VText "test"]), h1)
    /\ fetchall "test_test" h1 = (Ok (df_rows fixture_df), h2)
    /\ fetchall "test" h1 = (Raise (TableNotFoundError "test"), h1).
Proof.
  apply (rename_table_renames fixture_handler "test" "test_test"
           [("id", Some "INTEGER"); ("name", Some "TEXT")]
           (df_rows fixture_df) [VText "test"]); reflexivity.
Defined.

(** X3: [rename_table] onto a name that a table or an index already holds,
    in any letter case, raises [OperationalError]; the connection is
    left as it was, so nothing is renamed or overwritten. *)
Theorem rename_table_onto_taken_name
        (h : DBHandler) (a b : string) (e : entry) (ts : list value) :
  is_ident a = true -> is_ident b = true ->
  fst (tables h) = Ok ts -> In (VText a) ts ->
  find_entry b (working (connector h)) = Some e ->
  exists msg h1,
    rename_table a b h = (Raise (OperationalError msg), h1)
    /\ connector h1 = connector h.
Proof.
  intros Ha Hb Hts Hin Hf.
  assert (Hl : listed a h) by (apply (tables_listed h a ts Hts); exact Hin).
  rewrite rename_table_guard, (guard_present _ _ _ Hl).
  unfold bind, cursor_execute, conn_execute, prepare.
  rewrite (parse_rename_query _ _ Ha Hb).
  cbn [begin_for is_dml is_query]. unfold step.
  cbn [List.length Nat.eqb negb]. unfold run_rename. rewrite Hf.
  destruct (find_table a (working (connector h)));
    [destruct (reserved_name a); [|destruct (reserved_name b)]|];
    eexists _, _; split; reflexivity.
Qed.

Lemma rename_table_onto_taken_name_witness :
  exists msg h1,
    rename_table "test" "TEST" fixture_handler
    = (Raise (OperationalError msg), h1)
    /\ connector h1 = connector fixture_handler.
Proof.
  apply (rename_table_onto_taken_name fixture_handler "test" "TEST"
           (ETable "test" [("id", Some "INTEGER"); ("name", Some "TEXT")]
                   (df_rows fixture_df)) [VText "test"]).
  - reflexivity.
  - reflexivity.
  - reflexivity.
  - left; reflexivity.
  - reflexivity.
Defined.

(** ** Appending a frame *)

Lemma align_own_columns (cols : list column) (r : row) :
  distinct_names (map fst cols) = true ->
  List.length r = List.length cols ->
  align_row cols (map fst cols) r = r.
Proof.
  intros Hd Hlen. unfold align_row.
  rewrite <- (map_map fst (aligned_value (map fst cols) r)).
  apply align_labels; [exact Hd|]. rewrite length_map. exact Hlen.
Qed.

Lemma insert_records_from_dataframe_spec h t cols rows df :
  valid_sqlite_name t = true ->
  wf_database (working (connector h)) = true ->
  find_table t (working (connector h)) = Some (ETable t cols rows) ->
  df_columns df = map fst cols ->
  df_rows df <> [] ->
  Forall (fun r => row_fits cols r = true) (df_rows df) ->
  insert_records_from_dataframe t df h
  = (Ok tt,
     {| DB_file_path := DB_file_path h;
        connector :=
          connect (map (append_rows t (df_rows df)) (working (connector h)));
        cursor := cursor h |}).
Proof.
  intros Hval Hwf Hf Hlabels Hne Hall.
  destruct (find_table_In _ _ _ Hf) as [Hin _].
  destruct (wf_entry_table _ _ _ (wf_database_entry _ _ Hwf Hin))
    as [_ [Hcols [Hd _]]].
  rewrite insert_records_from_dataframe_guard,
    (guard_present _ _ _ (find_table_listed _ _ _ _ Hf)).
  assert (Hemp : df_empty df = false).
  { unfold df_empty. rewrite Hlabels, length_map.
    destruct cols; [congruence|]. destruct (df_rows df); [congruence|].
    reflexivity. }
  rewrite Hemp. unfold bind, df_to_sql, to_sql.
  assert (Hh : has_table t (working (connector h)) = true)
    by (apply has_table_In; eauto).
  rewrite Hval. cbn [negb].
  rewrite Hh. unfold insert_frame. rewrite Hf, Hlabels.
  assert (Hsub : forallb (fun l => existsb (name_eqb l) (map fst cols))
                         (map fst cols) = true).
  { apply forallb_forall. intros l Hl. apply existsb_exists.
    exists l. split; [exact Hl | apply name_eqb_refl]. }
  rewrite Hsub.
  assert (Hrows : map (align_row cols (map fst cols)) (df_rows df)
                  = df_rows df).
  { clear Hne. induction Hall as [|r rs Hr _ IH]; [reflexivity|].
    cbn [map].
    rewrite IH, (align_own_columns _ _ Hd (row_fits_length _ _ Hr)).
    reflexivity. }
  rewrite Hrows, store_rows_same; [reflexivity|].
  intros r Hr. rewrite Forall_forall in Hall.
  apply row_fits_store, Hall, Hr.
Qed.

(** X4: on an existing table with a bare name, a frame with at least one
    row, labelled with the table's columns in their order (labels the
    bridge accepts: not empty, no NUL), each frame column holding only
    integers of 64 bits or only text and NULLs, and each value one its
    table column stores as it is given, [insert_records_from_dataframe]
    returns and [fetchall] then gives the earlier rows followed by the
    frame's rows. *)
Theorem frame_append_then_fetch
        (h : DBHandler) (t : string) (cols : list column)
        (rows : list row) (df : DataFrame) :
  is_ident t = true ->
  wf_database (working (connector h)) = true ->
  find_table t (working (connector h)) = Some (ETable t cols rows) ->
  df_columns df = map fst cols ->
  forallb valid_sqlite_name (df_columns df) = true ->
  df_rows df <> [] ->
  typed_frame df = true ->
  Forall (fun r => row_fits cols r = true) (df_rows df) ->
  exists h1 h2,
    insert_records_from_dataframe t df h = (Ok tt, h1)
    /\ fetchall t h1 = (Ok (rows ++ df_rows df), h2).
Proof.
  intros Hid Hwf Hf Hlabels _ Hne _ Hall.
  destruct (find_table_In _ _ _ Hf) as [Hin _].
  destruct (wf_entry_table _ _ _ (wf_database_entry _ _ Hwf Hin))
    as [Hm _].
  eexists _, _. split.
  - apply (insert_records_from_dataframe_spec h t cols rows df);
      [apply is_ident_valid_name| | | | |]; assumption.
  - apply (fetchall_spec _ t t cols (rows ++ df_rows df) Hid Hm).
    + unfold listed. cbn [connector working connect].
      rewrite table_names_append_rows.
      exact (find_table_listed _ _ _ _ Hf).
    + cbn [connector working connect].
      apply find_table_append_rows, Hf.
Qed.

Lemma frame_append_then_fetch_witness :
  exists h1 h2,
    insert_records_from_dataframe
      "test" {| df_columns := ["id"; "name"];
                df_rows := [[VInt 3; VText "te3"]; [VInt 4; VText "te4"]] |}
      fixture_handler = (Ok tt, h1)
    /\ fetchall "test" h1
       = (Ok (df_rows fixture_df
                ++ [[VInt 3; VText "te3"]; [VInt 4; VText "te4"]]), h2).
Proof.
  apply (frame_append_then_fetch fixture_handler "test"
           [("id", Some "INTEGER"); ("name", Some "TEXT")]
           (df_rows fixture_df)
           {| df_columns := ["id"; "name"];
              df_rows := [[VInt 3; VText "te3"]; [VInt 4; VText "te4"]] |}).
  - reflexivity.
  - reflexivity.
  - reflexivity.
  - reflexivity.
  - reflexivity.
  - discriminate.
  - reflexivity.
  - repeat constructor.
Defined.

(** A frame value that does not fit its column is stored as the column's
    declared type has it. *)
Example frame_append_retyped :
  fst ((insert_records_from_dataframe
          "test" {| df_columns := ["id"; "name"];
                    df_rows := [[VText "3"; VInt 4]] |} ;;;
        fetchall "test") fixture_handler)
  = Ok (df_rows fixture_df ++ [[VInt 3; VText "4"]]).
Proof. vm_compute. reflexivity. Qed.

(** A frame whose columns come in another order is aligned by label. *)
Example frame_append_by_label :
  fst ((insert_records_from_dataframe
          "test" {| df_columns := ["name"; "id"];
                    df_rows := [[VText "te3"; VInt 3]] |} ;;;
        fetchall "test") fixture_handler)
  = Ok (df_rows fixture_df ++ [[VInt 3; VText "te3"]]).
Proof. vm_compute. reflexivity. Qed.

(** ** Commit on success *)

Lemma commit_settles {A} (m : M A) h h' :
  (m ;;; commit_) h = (Ok tt, h') -> settled (connector h').
Proof.
  unfold bind, commit_. destruct (m h) as [[a|e] h0]; [|discriminate].
  intros H. injection H as <-. split; reflexivity.
Qed.

Lemma guard_ok {A} t (body : M A) h a h' :
  guard t body h = (Ok a, h') -> body h = (Ok a, h').
Proof.
  unfold guard, bind. rewrite tables_spec.
  destruct (negb _); [discriminate|]. auto.
Qed.

(** X6: every writing method that returns has committed: the database on
    disk is the one the connection sees and no transaction is open. *)
Theorem writes_are_committed (c : call) (h h' : DBHandler) :
  mutating c = true ->
  run_call c h = (Ok tt, h') ->
  committed (connector h') = working (connector h')
  /\ in_transaction (connector h') = false.
Proof.
  intros Hm H. destruct c; try discriminate Hm; cbn [run_call] in H.
  - unfold create_table in H.
    destruct (column_clauses columns_dict); [|discriminate].
    exact (commit_settles _ _ _ H).
  - exact (commit_settles _ _ _ H).
  - rewrite rename_table_guard in H. apply guard_ok in H.
    exact (commit_settles _ _ _ H).
  - rewrite delete_duplicated_guard in H. apply guard_ok in H.
    unfold bind at 1 in H.
    destruct (exec_query_to_dataframe _ h) as [[df|e] h0]; [|discriminate].
    exact (commit_settles _ _ _ H).
  - rewrite delete_table_guard in H. apply guard_ok in H.
    exact (commit_settles _ _ _ H).
  - rewrite insert_records_guard in H. apply guard_ok in H.
    destruct (Nat.eqb (List.length values) 0); [discriminate|].
    exact (commit_settles _ _ _ H).
  - rewrite insert_records_from_dataframe_guard in H. apply guard_ok in H.
    destruct (df_empty df); [discriminate|].
    exact (commit_settles _ _ _ H).
Qed.

Lemma writes_are_committed_witness :
  committed (connector (snd (insert_records "test" [[VInt 3; VText "te3"]]
                                            fixture_handler)))
  = working (connector (snd (insert_records "test" [[VInt 3; VText "te3"]]
                                            fixture_handler)))
  /\ in_transaction
       (connector (snd (insert_records "test" [[VInt 3; VText "te3"]]
                                       fixture_handler))) = false.
Proof.
  apply (writes_are_committed
           (Call_insert_records "test" [[VInt 3; VText "te3"]])
           fixture_handler).
  - reflexivity.
  - reflexivity.
Defined.

(** ** Reading never writes *)

Lemma parse_select_body_query d ts s :
  parse_select_body d ts = Some s -> is_query s = true.
Proof.
  unfold parse_select_body. intros H.
  repeat match type of H with
    | context [match ?x with _ => _ end] => destruct x
    | context [if ?x then _ else _] => destruct x
    end; try discriminate H; injection H as <-; reflexivity.
Qed.

Lemma parse_select_query ts s : parse_select ts = Some s -> is_query s = true.
Proof.
  unfold parse_select. intros H.
  destruct ts as [|[w| | | | | | | |] rest];
    try exact (parse_select_body_query _ _ _ H).
  destruct (kw "distinct" w); exact (parse_select_body_query _ _ _ H).
Qed.

Lemma parse_select_all_any t s :
  parse (lex (select_all_query t)) = Some s -> is_query s = true.
Proof.
  change (select_all_query t)
    with ((nl ++ "        SELECT" ++ nl ++ "            *" ++ nl
              ++ "        FROM" ++ nl ++ "            ")
            ++ (t ++ nl ++ "        "))%string.
  rewrite (lex_clean_tokens _ [TWord "SELECT"; TStar; TWord "FROM"])
    by reflexivity.
  cbn [app].
  change (parse (TWord "SELECT" :: TStar :: TWord "FROM"
                   :: lex (t ++ nl ++ "        ")))
    with (parse_select (TStar :: TWord "FROM"
                          :: lex (t ++ nl ++ "        "))).
  apply parse_select_query.
Qed.

Lemma conn_execute_query q c r c' :
  (forall s, parse (lex q) = Some s -> is_query s = true) ->
  conn_execute q [] c = (r, c') -> c' = c.
Proof.
  intros Hq. unfold conn_execute, prepare.
  destruct (parse (lex q)) as [s|] eqn:Ep.
  - pose proof (Hq s eq_refl) as Hs.
    destruct s; try discriminate Hs. cbn [begin_for is_dml is_query].
    destruct (step _ [] (working c)) as [e|[rs db']]; intros H;
      injection H as _ <-; reflexivity.
  - intros H. injection H as _ <-. reflexivity.
Qed.

(** X7: [fetchall] never writes: for every handler and every name, whether
    it returns or raises, the connection (database on disk, pending view,
    transaction flag) is what it was. *)
Theorem fetchall_reads_only (h : DBHandler) (t : string) :
  connector (snd (fetchall t h)) = connector h.
Proof.
  rewrite fetchall_guard. unfold guard, bind. rewrite tables_spec.
  destruct (negb _); [reflexivity|].
  unfold exec_query, bind, cursor_execute, cursor_fetchall.
  destruct (conn_execute (select_all_query t) [] (connector h))
    as [[e|rs] c'] eqn:E;
    apply (conn_execute_query _ _ _ _ (parse_select_all_any t)) in E;
    subst c'; reflexivity.
Qed.

(** ** Creating tables *)

(** X8: a column type that is not a key of [type_dict] makes
    [create_table] raise [KeyError] before any statement is built or run:
    the handler state is unchanged, whatever the table name. *)
Theorem create_table_unknown_type
        (h : DBHandler) (t : string) (items : list (string * option pytype))
        (item : string * option pytype) :
  In item items ->
  type_dict (snd item) = None ->
  exists key, create_table t items h = (Raise (KeyError key), h).
Proof.
  intros Hin Hty.
  assert (Hc : exists key, column_clauses items = Raise (KeyError key)).
  { induction items as [|[k v] items IH]; [destruct Hin|].
    cbn [column_clauses]. destruct Hin as [<-|Hin].
    - cbn [snd] in Hty. rewrite Hty. eauto.
    - destruct (type_dict v); [|eauto].
      destruct (IH Hin) as [key ->]. eauto. }
  destruct Hc as [key Hc]. exists key.
  unfold create_table. rewrite Hc. reflexivity.
Qed.

Lemma create_table_unknown_type_witness :
  exists key,
    create_table "test" [("id", Some PyInt); ("ok", Some (PyOther "bool"))]
                 fixture_handler
    = (Raise (KeyError key), fixture_handler).
Proof.
  apply (create_table_unknown_type fixture_handler "test"
           [("id", Some PyInt); ("ok", Some (PyOther "bool"))]
           ("ok", Some (PyOther "bool"))).
  - right; left; reflexivity.
  - reflexivity.
Defined.

(** X9: [create_table] under a free, bare, unreserved name with an
    acceptable column dictionary adds the name at the end of [tables], and
    the new table has the dictionary's keys as columns, in the
    dictionary's order, and no rows. *)
Theorem create_table_makes_empty_table
        (h : DBHandler) (t : string) (items : list (string * option pytype))
        (ts : list value) :
  is_ident t = true ->
  reserved_name t = false ->
  valid_columns items = true ->
  find_entry t (working (connector h)) = None ->
  fst (tables h) = Ok ts ->
  exists h1,
    create_table t items h = (Ok tt, h1)
    /\ tables h1 = (Ok (ts ++ [VText t]), h1)
    /\ fetchall_to_dataframe t h1
       = (Ok {| df_columns := map fst items; df_rows := [] |}, h1).
Proof.
  intros Hid Hres Hv Hfree Hts.
  rewrite tables_spec in Hts. cbn [fst] in Hts. injection Hts as <-.
  pose (db1 := working (connector h)
                 ++ [ETable t (declared_columns items) []]).
  pose (h1 := {| DB_file_path := DB_file_path h; connector := connect db1;
                 cursor := [] |}).
  assert (Hf1 : find_table t db1 = Some (ETable t (declared_columns items) []))
    by (apply find_table_last, find_table_none_of_entry, Hfree).
  exists h1. split; [|split].
  - rewrite (create_table_spec h t items Hid Hres Hv) by auto.
    rewrite Hfree. reflexivity.
  - rewrite tables_spec. cbn [h1 connector working connect]. unfold db1.
    rewrite table_names_app. reflexivity.
  - rewrite (fetchall_to_dataframe_spec h1 t t _ _ Hid
               (reserved_not_master _ Hres)
               (find_table_listed _ _ _ _ Hf1) Hf1).
    rewrite declared_columns_names. reflexivity.
Qed.

Lemma create_table_makes_empty_table_witness :
  exists h1,
    create_table "log" [("id", Some PyInt); ("note", None)] fixture_handler
    = (Ok tt, h1)
    /\ tables h1 = (Ok ([VText "test"] ++ [VText "log"]), h1)
    /\ fetchall_to_dataframe "log" h1
       = (Ok {| df_columns := map fst [("id", Some PyInt); ("note", None)];
                df_rows := [] |}, h1).
Proof.
  apply (create_table_makes_empty_table fixture_handler "log"
           [("id", Some PyInt); ("note", None)] [VText "test"]); reflexivity.
Defined.



(** ** Other tables are left alone *)








(** ** A row list that fails part way *)

(** X12: [insert_records] is not all or nothing.  When the rows up to some
    row fit the table (its arity, and values its columns store as they are
    given) and that row has another arity, the call raises
    [ProgrammingError] without committing and without rolling back: the
    database on disk is unchanged, the rows before the bad one stay in the
    connection's open transaction, and [fetchall] on the same handler
    already returns them. *)
Theorem insert_records_partial_write
        (h : DBHandler) (t : string) (cols : list column)
        (rows good rest : list row) (bad : row) :
  is_ident t = true ->
  wf_database (working (connector h)) = true ->
  find_table t (working (connector h)) = Some (ETable t cols rows) ->
  good <> [] ->
  Forall (fun r => row_fits cols r = true) good ->
  List.length bad <> List.length cols ->
  exists msg h1 h2,
    insert_records t (good ++ bad :: rest) h
    = (Raise (ProgrammingError msg), h1)
    /\ committed (connector h1) = committed (connector h)
    /\ in_transaction (connector h1) = true
    /\ fetchall t h1 = (Ok (rows ++ good), h2).
Proof.
  intros Hid Hwf Hf Hne Hall Hbad.
  destruct (find_table_In _ _ _ Hf) as [Hin _].
  destruct (wf_entry_table _ _ _ (wf_database_entry _ _ Hwf Hin))
    as [Hm [Hcols _]].
  pose (c1 := {| committed := committed (connector h);
                 working := map (append_rows t good) (working (connector h));
                 in_transaction := true |}).
  pose (h1 := {| DB_file_path := DB_file_path h; connector := c1;
                 cursor := [] |}).
  exists "Incorrect number of bindings supplied.", h1,
    {| DB_file_path := DB_file_path h1; connector := connector h1;
       cursor := [] |}.
  split;
    [exact (insert_records_partial_spec h t cols rows good rest bad
              Hid Hcols Hf Hne Hall Hbad)|].
  split; [reflexivity|]. split; [reflexivity|].
  apply (fetchall_spec h1 t t cols (rows ++ good) Hid Hm).
  - unfold listed. cbn [h1 c1 connector working].
    rewrite table_names_append_rows. exact (find_table_listed _ _ _ _ Hf).
  - cbn [h1 c1 connector working]. apply find_table_append_rows, Hf.
Qed.

Lemma insert_records_partial_write_witness :
  exists msg h1 h2,
    insert_records "test" ([[VInt 3; VText "te3"]] ++ [VInt 4] :: [])
                   fixture_handler
    = (Raise (ProgrammingError msg), h1)
    /\ committed (connector h1) = committed (connector fixture_handler)
    /\ in_transaction (connector h1) = true
    /\ fetchall "test" h1
       = (Ok (df_rows fixture_df ++ [[VInt 3; VText "te3"]]), h2).
Proof.
  apply (insert_records_partial_write fixture_handler "test"
           [("id", Some "INTEGER"); ("name", Some "TEXT")]
           (df_rows fixture_df) [[VInt 3; VText "te3"]] [] [VInt 4]).
  - reflexivity.
  - reflexivity.
  - reflexivity.
  - discriminate.
  - repeat constructor.
  - cbn. lia.
Defined.

(** ** When the two errors of this layer are raised *)

Lemma df_empty_iff df :
  df_empty df = true <-> df_columns df = [] \/ df_rows df = [].
Proof.
  unfold df_empty. rewrite orb_true_iff, !Nat.eqb_eq, !length_zero_iff_nil.
  reflexivity.
Qed.

Lemma then_commit_raises {A} {P : exn -> Prop} (m : M A) :
  raises_only P m -> raises_only P (m ;;; commit_).
Proof.
  intros Hm. apply raises_only_bind; [exact Hm|].
  intros _. apply commit_raises.
Qed.

(** X13: on a listed table the empty-input [ValueError] is raised exactly
    for an empty payload: by [insert_records] if and only if the row list
    is empty, by [insert_records_from_dataframe] if and only if the frame
    has no rows or no columns. *)
Theorem empty_input_exactly (h : DBHandler) (t : string) (ts : list value) :
  fst (tables h) = Ok ts ->
  In (VText t) ts ->
  (forall values,
      fst (insert_records t values h)
      = Raise (ValueError "add data is empty.") <-> values = [])
  /\ (forall df,
         fst (insert_records_from_dataframe t df h)
         = Raise (ValueError "add data is empty.")
         <-> df_columns df = [] \/ df_rows df = []).
Proof.
  intros Hts Hin.
  assert (Hl : listed t h) by (apply (tables_listed h t ts Hts); exact Hin).
  split.
  - intros values.
    rewrite insert_records_guard, (guard_present _ _ _ Hl).
    destruct values as [|v values]; cbn [List.length Nat.eqb].
    + split; reflexivity.
    + split; [|discriminate]. intros H. exfalso.
      destruct ((cursor_executemany
                   (insert_query t (List.length (hd [] (v :: values))))
                   (v :: values);;; commit_) h) as [[u|e] h'] eqn:E;
        cbn [fst] in H; [discriminate|].
      assert (He : engine_error e = true)
        by exact (then_commit_raises _ (cursor_executemany_raises _ _)
                    _ _ _ E).
      injection H as ->. discriminate He.
  - intros df.
    rewrite insert_records_from_dataframe_guard, (guard_present _ _ _ Hl).
    rewrite <- df_empty_iff.
    destruct (df_empty df).
    + split; reflexivity.
    + split; [|discriminate]. intros H. exfalso.
      destruct ((df_to_sql df t Append;;; commit_) h) as [[u|e] h'] eqn:E;
        cbn [fst] in H; [discriminate|].
      assert (He : precondition_error e = false)
        by exact (then_commit_raises _ (df_to_sql_raises _ _ _) _ _ _ E).
      injection H as ->. discriminate He.
Qed.

Lemma empty_input_exactly_witness :
  (forall values,
      fst (insert_records "test" values fixture_handler)
      = Raise (ValueError "add data is empty.") <-> values = [])
  /\ (forall df,
         fst (insert_records_from_dataframe "test" df fixture_handler)
         = Raise (ValueError "add data is empty.")
         <-> df_columns df = [] \/ df_rows df = []).
Proof.
  apply (empty_input_exactly fixture_handler "test" [VText "test"]).
  - reflexivity.
  - left; reflexivity.
Defined.

Lemma guard_raise_cases {A} t (body : M A) h e h' :
  guard t body h = (Raise e, h') ->
  (~ listed t h /\ e = TableNotFoundError t)
  \/ (listed t h /\ body h = (Raise e, h')).
Proof.
  unfold guard, bind. rewrite tables_spec.
  destruct (py_in (VText t) (table_names (working (connector h)))) eqn:E;
    cbn [negb]; intros H.
  - right. split; [apply py_in_In; exact E | exact H].
  - left. injection H as <- _. split; [|reflexivity].
    unfold listed. intros Hl. apply py_in_In in Hl. congruence.
Qed.

(** X14: a [TableNotFoundError] always names the table the method was
    called on, and is raised only when that name is not among [tables]:
    no method without a table argument raises it, and nothing below the
    existence check does. *)
Theorem table_not_found_names_argument
        (c : call) (h h' : DBHandler) (n : string) (ts : list value) :
  fst (tables h) = Ok ts ->
  run_call c h = (Raise (TableNotFoundError n), h') ->
  call_table c = Some n /\ ~ In (VText n) ts.
Proof.
  intros Hts H.
  assert (Hno : forall A (m : M A),
             raises_only (fun e => precondition_error e = false) m ->
             m h = (Raise (TableNotFoundError n), h') -> False).
  { intros A m Hm Hr. apply Hm in Hr. discriminate Hr. }
  assert (Heng : forall A (m : M A),
             raises_only (fun e => engine_error e = true) m ->
             m h = (Raise (TableNotFoundError n), h') -> False).
  { intros A m Hm Hr. apply Hm in Hr. discriminate Hr. }
  assert (Hguard : forall A t (body : M A),
             (body h = (Raise (TableNotFoundError n), h') -> False) ->
             guard t body h = (Raise (TableNotFoundError n), h') ->
             Some t = Some n /\ ~ In (VText n) ts).
  { intros A t body Hbody Hg.
    apply guard_raise_cases in Hg as [[Habs He]|[_ Hb]];
      [|destruct (Hbody Hb)].
    injection He as <-. split; [reflexivity|].
    intros Hin. apply Habs. apply (tables_listed h n ts Hts). exact Hin. }
  destruct c; cbn [run_call call_table] in *; try apply void_raise in H.
  - destruct (Heng _ _ (exec_query_raises query) H).
  - destruct (Heng _ _ (pd_read_sql_raises query) H).
  - destruct (Hno _ _ (create_table_raises table_name columns_dict) H).
  - destruct (Hno _ _ (create_table_from_dataframe_raises table_name df) H).
  - rewrite rename_table_guard in H. revert H. apply Hguard.
    apply Heng, then_commit_raises, cursor_execute_raises.
  - rewrite delete_duplicated_guard in H. revert H. apply Hguard.
    apply Hno, raises_only_bind;
      [exact (raises_only_weaken _ _ _ engine_not_precondition
                (pd_read_sql_raises _))|].
    intros df. apply create_table_from_dataframe_raises.
  - rewrite delete_table_guard in H. revert H. apply Hguard.
    apply Heng, then_commit_raises, cursor_execute_raises.
  - rewrite fetchall_guard in H. revert H. apply Hguard.
    apply Heng, exec_query_raises.
  - rewrite fetchall_to_dataframe_guard in H. revert H. apply Hguard.
    apply Heng, pd_read_sql_raises.
  - rewrite insert_records_guard in H. revert H. apply Hguard.
    destruct (Nat.eqb (List.length values) 0); [discriminate|].
    apply Heng, then_commit_raises, cursor_executemany_raises.
  - rewrite insert_records_from_dataframe_guard in H. revert H.
    apply Hguard.
    destruct (df_empty df); [discriminate|].
    apply Hno, then_commit_raises, df_to_sql_raises.
  - rewrite tables_spec in H. discriminate H.
Qed.

Lemma table_not_found_names_argument_witness :
  call_table (Call_rename_table "test" "test-test") = Some "test"
  /\ ~ In (VText "test") [VText "test123"].
Proof.
  apply (table_not_found_names_argument
           (Call_rename_table "test" "test-test")
           (snd (create_table_from_dataframe "test123" fixture_df
                   fresh_handler))
           (snd (create_table_from_dataframe "test123" fixture_df
                   fresh_handler))
           "test" [VText "test123"]).
  - reflexivity.
  - reflexivity.
Defined.

(** ** What replacing a table does to the catalog *)

Lemma table_names_free t db :
  find_entry t db = None ->
  filter (fun v => negb (value_eqb v (VText t))) (table_names db)
  = table_names db.
Proof.
  rewrite find_entry_none. intros H. unfold table_names.
  induction db as [|e db IH]; [reflexivity|].
  pose proof (IH (fun x Hx => H x (or_intror Hx))) as IH'.
  cbn [filter]. destruct (is_table e); [|exact IH'].
  cbn [map filter]. rewrite value_eqb_text.
  destruct (String.eqb (entry_name e) t) eqn:E.
  - apply string_eqb_name in E. rewrite (H e (or_introl eq_refl)) in E.
    discriminate E.
  - cbn [negb]. rewrite IH'. reflexivity.
Qed.

Lemma table_names_replaced t df db :
  wf_database db = true ->
  has_table t db = true \/ find_entry t db = None ->
  table_names (replaced t df db)
  = filter (fun v => negb (value_eqb v (VText t))) (table_names db)
      ++ [VText t].
Proof.
  intros Hwf Hown. unfold replaced, replaced_base.
  rewrite table_names_app. f_equal.
  destruct (has_table t db) eqn:Hh.
  - apply has_table_In in Hh as [c [r Hin]].
    exact (table_names_drop t db c r (wf_distinct _ Hwf) Hin).
  - destruct Hown as [Hc|Hfree]; [discriminate|].
    symmetry. apply table_names_free, Hfree.
Qed.

Lemma replaced_no_index t df db n tb :
  has_table t db = true ->
  In (EIndex n tb) (replaced t df db) -> name_eqb tb t = false.
Proof.
  intros Hh. unfold replaced, replaced_base. rewrite Hh. intros Hin.
  apply in_app_or in Hin as [Hin|[Hin|[]]]; [|discriminate Hin].
  unfold drop_entries in Hin. apply filter_In in Hin as [_ Hk].
  cbn [entry_tbl_name] in Hk. apply negb_true_iff in Hk. exact Hk.
Qed.



(** X16: [create_table_from_dataframe] overwrites.  For a name the bridge
    accepts (not empty, no NUL; a bare identifier or not) that is not
    reserved, and that either no schema object holds in any letter case or
    is the exact name of an existing table, and a rectangular frame with
    labels the bridge accepts and integers of 64 bits: the name is
    afterwards listed exactly once, at the end of [tables], and an earlier
    table of that name has lost its indexes with its rows. *)
Theorem create_table_from_dataframe_overwrites
        (h : DBHandler) (t : string) (df : DataFrame) (ts : list value) :
  valid_sqlite_name t = true ->
  reserved_name t = false ->
  wf_database (working (connector h)) = true ->
  wf_frame df = true ->
  forallb valid_sqlite_name (df_columns df) = true ->
  forallb (forallb bindable) (df_rows df) = true ->
  has_table t (working (connector h)) = true
  \/ find_entry t (working (connector h)) = None ->
  fst (tables h) = Ok ts ->
  exists h1,
    create_table_from_dataframe t df h = (Ok tt, h1)
    /\ tables h1
       = (Ok (filter (fun v => negb (value_eqb v (VText t))) ts
                ++ [VText t]), h1)
    /\ py_count (VText t)
                (filter (fun v => negb (value_eqb v (VText t))) ts
                   ++ [VText t]) = 1
    /\ (has_table t (working (connector h)) = true ->
        forall n tb, In (EIndex n tb) (working (connector h1)) ->
                     name_eqb tb t = false).
Proof.
  intros Hval Hres Hwf Hdf _ _ Hown Hts.
  rewrite tables_spec in Hts. cbn [fst] in Hts. injection Hts as <-.
  pose (h1 := {| DB_file_path := DB_file_path h;
                 connector := connect (replaced t df (working (connector h)));
                 cursor := cursor h |}).
  exists h1. split; [|split; [|split]].
  - apply create_table_from_dataframe_spec; assumption.
  - rewrite tables_spec. cbn [h1 connector working connect].
    rewrite (table_names_replaced t df _ Hwf Hown). reflexivity.
  - rewrite py_count_app. unfold py_count at 1.
    rewrite (proj2 (length_zero_iff_nil _)).
    + unfold py_count. cbn [filter]. rewrite value_eqb_text, String.eqb_refl.
      reflexivity.
    + destruct (filter _ (filter _ _)) as [|v l] eqn:E; [reflexivity|].
      assert (Hv : In v (v :: l)) by (left; reflexivity).
      rewrite <- E in Hv. apply filter_In in Hv as [Hv1 Hv2].
      apply filter_In in Hv1 as [_ Hv1].
      destruct (value_eqb_spec (VText t) v) as [<-|]; [|discriminate].
      rewrite value_eqb_text, String.eqb_refl in Hv1. discriminate Hv1.
  - intros Hh n tb. cbn [h1 connector working connect].
    apply replaced_no_index, Hh.
Qed.

Lemma create_table_from_dataframe_overwrites_witness :
  exists h1,
    create_table_from_dataframe "test-test" fixture_df two_tables_handler
    = (Ok tt, h1)
    /\ tables h1
       = (Ok (filter (fun v => negb (value_eqb v (VText "test-test")))
                     [VText "log"; VText "test"] ++ [VText "test-test"]), h1)
    /\ py_count (VText "test-test")
                (filter (fun v => negb (value_eqb v (VText "test-test")))
                        [VText "log"; VText "test"] ++ [VText "test-test"])
       = 1
    /\ (has_table "test-test" (working (connector two_tables_handler)) = true
        -> forall n tb, In (EIndex n tb) (working (connector h1)) ->
                        name_eqb tb "test-test" = false).
Proof.
  apply (create_table_from_dataframe_overwrites two_tables_handler
           "test-test" fixture_df [VText "log"; VText "test"]).
  - reflexivity.
  - reflexivity.
  - reflexivity.
  - reflexivity.
  - reflexivity.
  - reflexivity.
  - right. reflexivity.
  - reflexivity.
Defined.

(** Outside these names the call raises: an empty name is refused by the
    bridge, and a name that differs from an existing table's only in
    letter case is not found by [has_table] and cannot be created. *)
Example create_table_from_dataframe_refused :
  fst (create_table_from_dataframe "" fixture_df fresh_handler)
  = Raise (ValueError "Empty table or column name specified")
  /\ (exists msg,
         fst (create_table_from_dataframe "TEST" fixture_df fixture_handler)
         = Raise (DatabaseError msg))
  /\ snd (create_table_from_dataframe "TEST" fixture_df fixture_handler)
     = fixture_handler.
Proof.
  split; [reflexivity|]. split; [eexists|]; vm_compute; reflexivity.
Qed.

(** ** A row list that does not fit the table *)

(** X17: when the first row of the list has another arity than the table,
    [insert_records] raises [OperationalError] at compilation: no row is
    written, no transaction is opened, and the connection is unchanged,
    even if later rows would fit. *)
Theorem insert_records_first_row_misfit
        (h : DBHandler) (t : string) (cols : list column)
        (rows : list row) (first : row) (rest : list row) :
  is_ident t = true ->
  find_table t (working (connector h)) = Some (ETable t cols rows) ->
  List.length first <> List.length cols ->
  exists msg h1,
    insert_records t (first :: rest) h = (Raise (OperationalError msg), h1)
    /\ connector h1 = connector h.
Proof.
  intros Hid Hf Hlen.
  exact (insert_records_misfit_spec h t cols rows first rest Hid Hf Hlen).
Qed.

Lemma insert_records_first_row_misfit_witness :
  exists msg h1,
    insert_records "test" ([VInt 4] :: [[VInt 3; VText "te3"]])
                   fixture_handler
    = (Raise (OperationalError msg), h1)
    /\ connector h1 = connector fixture_handler.
Proof.
  apply (insert_records_first_row_misfit fixture_handler "test"
           [("id", Some "INTEGER"); ("name", Some "TEXT")]
           (df_rows fixture_df) [VInt 4] [[VInt 3; VText "te3"]]).
  - reflexivity.
  - reflexivity.
  - cbn. lia.
Defined.
